(** * Ohm's Law simulation: the reactive model, the arrow-size description
      and the resistor's dot display

    A shallow embedding of
    - [OhmsLawModel] (two [NumberProperty]s, one [DerivedProperty], [reset]),
    - [WireBox.getArrowSizeDescription],
    - [ResistorNode]'s [RESISTANCE_TO_NUM_DOTS] and its visibility listener,
    together with the parts of AXON ([Property], [DerivedProperty]) and DOT
    ([Util.linear], [Util.roundSymmetric], [Util.clamp], [LinearFunction])
    that those functions call.

    JavaScript numbers are idealised: a finite number is an exact rational,
    arithmetic on finite numbers neither rounds nor overflows, and zero has no
    sign.  The non-finite values [Infinity], [-Infinity] and [NaN] are kept,
    because division by zero produces them instead of raising an error, and
    because the setters of the model store them like any other number.

    Two things follow for the statements.  Where a result is stated to be
    finite, the operands are bounded by the configured ranges and the bound
    is part of the statement, since an exact product cannot show the overflow
    of a product of doubles.  Where a number is divided by zero, the
    statements say that the result is not finite and leave the sign of an
    infinity open, since the sign of a zero decides it. *)

From Stdlib Require Import QArith Qround Qabs ZArith String Ascii List Bool.
From Stdlib Require Import Permutation Lia Lqa.
Import ListNotations.
Open Scope Q_scope.

(** ** JavaScript numbers *)

Inductive number : Type :=
| Fin (q : Q)
| PosInf
| NegInf
| NaN.

Module JS.

Definition Qltb (a b : Q) : bool := negb (Qle_bool b a).

(** [a === b] on numbers: [NaN] is different from everything. *)
Definition strict_eq (a b : number) : bool :=
  match a, b with
  | Fin x, Fin y => Qeq_bool x y
  | PosInf, PosInf => true
  | NegInf, NegInf => true
  | _, _ => false
  end.

(** [a < b]; every comparison with [NaN] is false. *)
Definition lt (a b : number) : bool :=
  match a, b with
  | NaN, _ | _, NaN => false
  | Fin x, Fin y => Qltb x y
  | NegInf, NegInf => false
  | NegInf, _ => true
  | _, NegInf => false
  | PosInf, _ => false
  | Fin _, PosInf => true
  end.

Definition gt (a b : number) : bool := lt b a.

(** [a >= b] *)
Definition ge (a b : number) : bool :=
  match a, b with
  | NaN, _ | _, NaN => false
  | _, _ => negb (lt a b)
  end.

Definition neg (a : number) : number :=
  match a with
  | Fin x => Fin (- x)
  | PosInf => NegInf
  | NegInf => PosInf
  | NaN => NaN
  end.

(** The infinity carrying the sign of a non-zero rational. *)
Definition inf_like (x : Q) : number :=
  if Qltb 0 x then PosInf else NegInf.

Definition add (a b : number) : number :=
  match a, b with
  | NaN, _ | _, NaN => NaN
  | Fin x, Fin y => Fin (x + y)
  | PosInf, NegInf | NegInf, PosInf => NaN
  | PosInf, _ | _, PosInf => PosInf
  | NegInf, _ | _, NegInf => NegInf
  end.

Definition sub (a b : number) : number := add a (neg b).

Definition mul (a b : number) : number :=
  match a, b with
  | NaN, _ | _, NaN => NaN
  | Fin x, Fin y => Fin (x * y)
  | Fin x, PosInf | PosInf, Fin x =>
      if Qeq_bool x 0 then NaN else inf_like x
  | Fin x, NegInf | NegInf, Fin x =>
      if Qeq_bool x 0 then NaN else neg (inf_like x)
  | PosInf, PosInf | NegInf, NegInf => PosInf
  | PosInf, NegInf | NegInf, PosInf => NegInf
  end.

(** Division never raises: a zero divisor gives an infinity, or [NaN] for
    [0 / 0]. *)
Definition div (a b : number) : number :=
  match a, b with
  | NaN, _ | _, NaN => NaN
  | Fin x, Fin y =>
      if Qeq_bool y 0
      then (if Qeq_bool x 0 then NaN else inf_like x)
      else Fin (x / y)
  | Fin _, (PosInf | NegInf) => Fin 0
  | PosInf, Fin y => if Qltb y 0 then NegInf else PosInf
  | NegInf, Fin y => if Qltb y 0 then PosInf else NegInf
  | (PosInf | NegInf), (PosInf | NegInf) => NaN
  end.

Definition isFinite (a : number) : bool :=
  match a with Fin _ => true | _ => false end.

(** [a[i]] for an array [a]: [undefined] ([None]) unless [i] is an integer
    index below the length. *)
Definition array_get {A : Type} (a : list A) (i : number) : option A :=
  match i with
  | Fin q =>
      if Qeq_bool q (inject_Z (Qfloor q)) && (0 <=? Qfloor q)%Z
      then nth_error a (Z.to_nat (Qfloor q))
      else None
  | _ => None
  end.

(** [a.length] *)
Definition length {A : Type} (a : list A) : number :=
  Fin (inject_Z (Z.of_nat (List.length a))).

Definition lower_ascii (c : ascii) : ascii :=
  let n := nat_of_ascii c in
  if ((65 <=? n) && (n <=? 90))%nat then ascii_of_nat (n + 32) else c.

(** [s.toLowerCase()], on the ASCII letters. *)
Fixpoint toLowerCase (s : string) : string :=
  match s with
  | EmptyString => EmptyString
  | String c rest => String (lower_ascii c) (toLowerCase rest)
  end.

End JS.

(** Same value: the equality of the idealised numbers, with [NaN] equal to
    itself (what [Object.is] decides, zero being unsigned here). *)
Definition same_value (a b : number) : Prop :=
  match a, b with
  | Fin x, Fin y => x == y
  | PosInf, PosInf => True
  | NegInf, NegInf => True
  | NaN, NaN => True
  | _, _ => False
  end.

Module Math.

Definition abs (a : number) : number :=
  match a with
  | Fin x => Fin (Qabs x)
  | PosInf | NegInf => PosInf
  | NaN => NaN
  end.

(** [Math.round]: the nearest integer, a tie going up. *)
Definition round (a : number) : number :=
  match a with
  | Fin x => Fin (inject_Z (Qfloor (x + (1 # 2))))
  | other => other
  end.

Definition max (a b : number) : number :=
  match a, b with
  | NaN, _ | _, NaN => NaN
  | _, _ => if JS.lt a b then b else a
  end.

Definition min (a b : number) : number :=
  match a, b with
  | NaN, _ | _, NaN => NaN
  | _, _ => if JS.lt b a then b else a
  end.

End Math.

(** ** DOT: [Util] and [LinearFunction] *)

Module Util.

(** [linear( a1, a2, b1, b2, a3 )]:
    [( b2 - b1 ) / ( a2 - a1 ) * ( a3 - a1 ) + b1] *)
Definition linear (a1 a2 b1 b2 a3 : number) : number :=
  JS.add (JS.mul (JS.div (JS.sub b2 b1) (JS.sub a2 a1)) (JS.sub a3 a1)) b1.

(** [roundSymmetric( value )]:
    [( ( value < 0 ) ? -1 : 1 ) * Math.round( Math.abs( value ) )] *)
Definition roundSymmetric (value : number) : number :=
  JS.mul (if JS.lt value (Fin 0) then Fin (-1) else Fin 1)
         (Math.round (Math.abs value)).

Definition clamp (value min max : number) : number :=
  if JS.lt value min then min
  else if JS.gt value max then max
  else value.

End Util.

(** [new LinearFunction( a1, a2, b1, b2, clamp )], applied to [a3]. *)
Definition LinearFunction (a1 a2 b1 b2 : number) (clamp : bool) (a3 : number)
  : number :=
  let b3 := Util.linear a1 a2 b1 b2 a3 in
  if clamp
  then Util.clamp b3 (Math.min b1 b2) (Math.max b1 b2)
  else b3.

(** ** DOT: [RangeWithValue] *)

Module Range.

Record t : Type := make { min : Q; max : Q; defaultValue : Q }.

Definition getDefaultValue (r : t) : number := Fin (defaultValue r).

Definition contains (r : t) (x : Q) : Prop := min r <= x /\ x <= max r.

End Range.

(** ** The constants of [OhmsLawConstants]

    [OhmsLawConstants.js] is not among the sources; the constants that the
    modelled functions read are the fields of this record, and every
    definition below takes the record as a parameter. *)
Record OhmsLawConstants : Type := {
  VOLTAGE_RANGE : Range.t;
  RESISTANCE_RANGE : Range.t;
  WIRE_WIDTH : Q;
  WIRE_HEIGHT : Q;
  RELATIVE_SIZE_STRINGS : list string
}.

(** ** AXON: [Property]

    The model is built from AXON's [NumberProperty] and [DerivedProperty],
    a library outside this repository.  What is modelled of it:
    - a property holds [_value], [_initialValue] and its listeners in the
      order of their registration;
    - [set( value )] does nothing when [value === this._value]; otherwise it
      stores the value and calls every listener with the new and the old
      value; a [NumberProperty] created without a range, as both are here,
      accepts every number;
    - [reset()] is [this.set( this._initialValue )];
    - [lazyLink( listener )] registers the listener, [link( listener )]
      registers it and calls it at once with the value and [null];
    - a [DerivedProperty] computes its value from its dependencies when it is
      created, and registers on each dependency a listener that recomputes
      the value and [set]s it.

    A listener is either the function that a [DerivedProperty] registers on
    each of its dependencies, or an observer of the view, known by an
    identifier.  An observer only records what it is called with: each call
    is a [notification] in the log that the operations return. *)

Inductive listener : Type :=
| DependencyListener
| Observer (id : nat).

Record Property (L : Type) : Type := {
  value : number;
  initialValue : number;
  listeners : list L
}.
Arguments value {L} _.
Arguments initialValue {L} _.
Arguments listeners {L} _.

Definition newProperty {L : Type} (v : number) : Property L :=
  {| value := v; initialValue := v; listeners := [] |}.

Definition withValue {L : Type} (p : Property L) (v : number) : Property L :=
  {| value := v; initialValue := initialValue p; listeners := listeners p |}.

Definition addListener {L : Type} (p : Property L) (l : L) : Property L :=
  {| value := value p; initialValue := initialValue p;
     listeners := listeners p ++ [l] |}.

Inductive name : Type := voltage | resistance | current.

Record notification : Type := {
  observer : nat;
  property : name;
  newValue : number;
  oldValue : option number
}.

(** [soundActiveProperty] would be a boolean property. *)
Record BooleanProperty : Type := {
  booleanValue : bool;
  booleanInitialValue : bool
}.

Inductive error : Type := TypeError | AssertionError.

(** How a call ends: it returns a value, or it throws. *)
Inductive completion (A : Type) : Type :=
| Normal (a : A)
| Throw (e : error).
Arguments Normal {A} _.
Arguments Throw {A} _.

(** ** [OhmsLawModel] *)

Record OhmsLawModel : Type := {
  voltageProperty : Property listener;
  resistanceProperty : Property listener;
  (** the [DerivedProperty]; only observers listen to it *)
  currentProperty : Property nat;
  (** [None] is [undefined]: [reset] reads this field, the constructor
      never assigns it *)
  soundActiveProperty : option BooleanProperty
}.

Definition withVoltage (m : OhmsLawModel) (p : Property listener) :=
  {| voltageProperty := p;
     resistanceProperty := resistanceProperty m;
     currentProperty := currentProperty m;
     soundActiveProperty := soundActiveProperty m |}.

Definition withResistance (m : OhmsLawModel) (p : Property listener) :=
  {| voltageProperty := voltageProperty m;
     resistanceProperty := p;
     currentProperty := currentProperty m;
     soundActiveProperty := soundActiveProperty m |}.

Definition withCurrent (m : OhmsLawModel) (p : Property nat) :=
  {| voltageProperty := voltageProperty m;
     resistanceProperty := resistanceProperty m;
     currentProperty := p;
     soundActiveProperty := soundActiveProperty m |}.

Definition withSoundActive (m : OhmsLawModel) (p : option BooleanProperty) :=
  {| voltageProperty := voltageProperty m;
     resistanceProperty := resistanceProperty m;
     currentProperty := currentProperty m;
     soundActiveProperty := p |}.

Definition getVoltage (m : OhmsLawModel) : number := value (voltageProperty m).
Definition getResistance (m : OhmsLawModel) : number :=
  value (resistanceProperty m).
Definition getCurrent (m : OhmsLawModel) : number := value (currentProperty m).

(** The derivation of [currentProperty]:
    [function( voltage, resistance ) { return 1000 * voltage / resistance; }] *)
Definition derivation (voltage resistance : number) : number :=
  JS.div (JS.mul (Fin 1000) voltage) resistance.

(** [Property.prototype.set.call( self, ... )] on the derived property:
    nothing happens when the value is [===] the stored one, otherwise the
    value is stored and every listener is called with the new and the old
    value. *)
Definition setCurrent (c : number) (m : OhmsLawModel)
  : OhmsLawModel * list notification :=
  let p := currentProperty m in
  if JS.strict_eq c (value p) then (m, [])
  else (withCurrent m (withValue p c),
        map (fun id => {| observer := id; property := current;
                          newValue := c; oldValue := Some (value p) |})
            (listeners p)).

(** One listener of a dependency, called with the new and the old value. *)
Definition callListener (n : name) (new old : number)
    (st : OhmsLawModel * list notification) (l : listener)
  : OhmsLawModel * list notification :=
  match l with
  | Observer id =>
      (fst st, snd st ++ [ {| observer := id; property := n;
                              newValue := new; oldValue := Some old |} ])
  | DependencyListener =>
      let '(m', log) :=
        setCurrent (derivation (getVoltage (fst st)) (getResistance (fst st)))
                   (fst st) in
      (m', snd st ++ log)
  end.

(** The listeners are called in the order of their registration. *)
Definition notifyListeners (n : name) (new old : number)
    (ls : list listener) (m : OhmsLawModel)
  : OhmsLawModel * list notification :=
  fold_left (callListener n new old) ls (m, []).

(** [voltageProperty.set( v )] *)
Definition setVoltage (v : number) (m : OhmsLawModel)
  : OhmsLawModel * list notification :=
  let p := voltageProperty m in
  if JS.strict_eq v (value p) then (m, [])
  else notifyListeners voltage v (value p) (listeners p)
                       (withVoltage m (withValue p v)).

(** [resistanceProperty.set( r )] *)
Definition setResistance (r : number) (m : OhmsLawModel)
  : OhmsLawModel * list notification :=
  let p := resistanceProperty m in
  if JS.strict_eq r (value p) then (m, [])
  else notifyListeners resistance r (value p) (listeners p)
                       (withResistance m (withValue p r)).

(** [lazyLink]: the listener is registered and not called. *)
Definition lazyLink (n : name) (id : nat) (m : OhmsLawModel) : OhmsLawModel :=
  match n with
  | voltage => withVoltage m (addListener (voltageProperty m) (Observer id))
  | resistance =>
      withResistance m (addListener (resistanceProperty m) (Observer id))
  | current => withCurrent m (addListener (currentProperty m) id)
  end.

Definition get (n : name) (m : OhmsLawModel) : number :=
  match n with
  | voltage => getVoltage m
  | resistance => getResistance m
  | current => getCurrent m
  end.

(** [link]: the listener is registered and called at once with the value and
    [null]. *)
Definition link (n : name) (id : nat) (m : OhmsLawModel)
  : OhmsLawModel * list notification :=
  (lazyLink n id m,
   [ {| observer := id; property := n;
        newValue := get n m; oldValue := None |} ]).

(** [new OhmsLawModel()]: the two inputs at their default values, the
    derived property computed from them and registered on both. *)
Definition newOhmsLawModel (K : OhmsLawConstants) : OhmsLawModel :=
  let v := Range.getDefaultValue (VOLTAGE_RANGE K) in
  let r := Range.getDefaultValue (RESISTANCE_RANGE K) in
  {| voltageProperty := addListener (newProperty v) DependencyListener;
     resistanceProperty := addListener (newProperty r) DependencyListener;
     currentProperty := newProperty (derivation v r);
     soundActiveProperty := None |}.

(** [reset]:
    [this.voltageProperty.reset(); this.resistanceProperty.reset();
     this.soundActiveProperty.reset();]
    where [Property.reset] is [this.set( this._initialValue )].  Calling a
    method of [undefined] throws a [TypeError]. *)
Definition reset (m : OhmsLawModel)
  : OhmsLawModel * list notification * completion unit :=
  let '(m1, log1) := setVoltage (initialValue (voltageProperty m)) m in
  let '(m2, log2) := setResistance (initialValue (resistanceProperty m1)) m1 in
  match soundActiveProperty m2 with
  | None => (m2, log1 ++ log2, Throw TypeError)
  | Some b =>
      (withSoundActive m2
         (Some {| booleanValue := booleanInitialValue b;
                  booleanInitialValue := booleanInitialValue b |}),
       log1 ++ log2, Normal tt)
  end.

(** The calls that the view makes on a model.  The setters take every
    number: the two properties are created without a range, so that
    [Infinity], [-Infinity] and [NaN] are stored like any other value. *)
Inductive call : Type :=
| SetVoltage (v : number)
| SetResistance (r : number)
| Link (n : name) (id : nat)
| LazyLink (n : name) (id : nat)
| Reset.

Definition outcome : Type :=
  (OhmsLawModel * list notification * completion unit)%type.

Definition modelOf (o : outcome) : OhmsLawModel := fst (fst o).
Definition logOf (o : outcome) : list notification := snd (fst o).
Definition completionOf (o : outcome) : completion unit := snd o.

Definition returns (st : OhmsLawModel * list notification) : outcome :=
  (st, Normal tt).

Definition step (c : call) (m : OhmsLawModel) : outcome :=
  match c with
  | SetVoltage v => returns (setVoltage v m)
  | SetResistance r => returns (setResistance r m)
  | Link n id => returns (link n id m)
  | LazyLink n id => returns (lazyLink n id m, [])
  | Reset => reset m
  end.

(** The states of a model: the constructed one, and every state that a call
    leaves, whether the call returned or threw. *)
Inductive reachable (K : OhmsLawConstants) : OhmsLawModel -> Prop :=
| reachable_new : reachable K (newOhmsLawModel K)
| reachable_step (c : call) (m : OhmsLawModel) :
    reachable K m -> reachable K (modelOf (step c m)).

(** Calls in sequence, as statements: what follows a call that throws is not
    run. *)
Fixpoint run (cs : list call) (m : OhmsLawModel) : outcome :=
  match cs with
  | [] => returns (m, [])
  | c :: rest =>
      match step c m with
      | (m1, log1, Normal _) =>
          let '(m2, log2, e) := run rest m1 in (m2, log1 ++ log2, e)
      | thrown => thrown
      end
  end.

(** The calls that an observer received for a property. *)
Definition name_eqb (a b : name) : bool :=
  match a, b with
  | voltage, voltage | resistance, resistance | current, current => true
  | _, _ => false
  end.

Definition callsTo (id : nat) (n : name) (log : list notification)
  : list notification :=
  filter (fun e => (observer e =? id)%nat && name_eqb (property e) n) log.

(** *** The vocabulary of the statements about the model *)

(** [frame m m']: from [m] to [m'] at most the value of the derived property
    has changed. *)
Definition frame (m m' : OhmsLawModel) : Prop :=
  voltageProperty m' = voltageProperty m /\
  resistanceProperty m' = resistanceProperty m /\
  soundActiveProperty m' = soundActiveProperty m /\
  listeners (currentProperty m') = listeners (currentProperty m) /\
  initialValue (currentProperty m') = initialValue (currentProperty m).

(** The derived property agrees with its dependencies. *)
Definition consistent (m : OhmsLawModel) : Prop :=
  same_value (getCurrent m) (derivation (getVoltage m) (getResistance m)).

(** What holds in every state that the model reaches. *)
Record invariant (K : OhmsLawConstants) (m : OhmsLawModel) : Prop := {
  inv_voltage_listeners :
    exists ids, listeners (voltageProperty m)
                = DependencyListener :: map Observer ids;
  inv_resistance_listeners :
    exists ids, listeners (resistanceProperty m)
                = DependencyListener :: map Observer ids;
  inv_consistent : consistent m;
  inv_sound : soundActiveProperty m = None;
  inv_voltage_initial :
    initialValue (voltageProperty m)
    = Fin (Range.defaultValue (VOLTAGE_RANGE K));
  inv_resistance_initial :
    initialValue (resistanceProperty m)
    = Fin (Range.defaultValue (RESISTANCE_RANGE K))
}.

(** The notification that an observer records. *)
Definition notice (n : name) (new : number) (old : option number) (id : nat)
  : notification :=
  {| observer := id; property := n; newValue := new; oldValue := old |}.

(** ** [WireBox.getArrowSizeDescription] *)

(** [RightAngleArrow.js] is not among the sources; of the arrow only the
    height that the scene graph reports is read. *)
Record RightAngleArrow : Type := { height : number }.

Record WireBox : Type := {
  bottomLeftArrow : RightAngleArrow;
  (** the height of the arrows at the lowest current, measured by the
      constructor *)
  minArrowHeight : number
}.

Definition HEIGHT (K : OhmsLawConstants) : number := Fin (WIRE_HEIGHT K).

Definition maxArrowHeightThresholdCoefficient : number := Fin 2.

Definition maxArrowHeightThreshold (K : OhmsLawConstants) : number :=
  JS.mul (HEIGHT K) maxArrowHeightThresholdCoefficient.

(** The value of [index] when the assertion is reached. *)
Definition arrowSizeIndex (K : OhmsLawConstants) (self : WireBox) : number :=
  let height := height (bottomLeftArrow self) in
  let index :=
    Util.roundSymmetric
      (Util.linear
         (minArrowHeight self) (maxArrowHeightThreshold K)
         (Fin 0) (JS.sub (JS.length (RELATIVE_SIZE_STRINGS K)) (Fin 1))
         height) in
  if JS.gt height (maxArrowHeightThreshold K)
  then JS.sub (JS.length (RELATIVE_SIZE_STRINGS K)) (Fin 1)
  else index.

(** The condition of the assertion. *)
Definition indexInBounds (K : OhmsLawConstants) (index : number) : bool :=
  JS.ge index (Fin 0) && JS.lt index (JS.length (RELATIVE_SIZE_STRINGS K)).

(** [assert] tells whether assertions are enabled.  With assertions
    disabled an index outside the array reads [undefined], whose
    [toLowerCase] is a [TypeError]. *)
Definition getArrowSizeDescription (K : OhmsLawConstants) (assert : bool)
    (self : WireBox) : completion string :=
  let index := arrowSizeIndex K self in
  if assert && negb (indexInBounds K index) then Throw AssertionError
  else
    match JS.array_get (RELATIVE_SIZE_STRINGS K) index with
    | None => Throw TypeError
    | Some s => Normal (JS.toLowerCase s)
    end.

(** *** The description in the words of the specification

    These three definitions follow the specification, not the code: the
    height is mapped linearly from the interval between the smallest arrow
    height and the threshold onto the indices of the list, the result is
    rounded, and above the threshold the index is the last one.  They are
    what [getArrowSizeDescription] is compared with. *)

(** Rounding to the nearest integer, a tie going away from zero. *)
Definition roundHalfAway (x : Q) : Z :=
  if JS.Qltb x 0 then (- Qfloor (- x + (1 # 2)))%Z else Qfloor (x + (1 # 2)).

Definition describedIndex (n : nat) (lowest threshold h : Q) : Z :=
  if JS.Qltb threshold h then (Z.of_nat n - 1)%Z
  else roundHalfAway
         (inject_Z (Z.of_nat n - 1) * (h - lowest) / (threshold - lowest)).

(** The string at the described index, in lower case; [None] when the index
    is outside the list. *)
Definition describedSize (strings : list string) (lowest threshold h : Q)
  : option string :=
  let i := describedIndex (List.length strings) lowest threshold h in
  if (0 <=? i)%Z
  then option_map JS.toLowerCase (nth_error strings (Z.to_nat i))
  else None.

(** ** [ResistorNode]: the dots and their visibility *)

Definition RESISTOR_WIDTH (K : OhmsLawConstants) : number :=
  JS.div (Fin (WIRE_WIDTH K)) (Fin 2.123).

Definition RESISTOR_HEIGHT (K : OhmsLawConstants) : number :=
  JS.div (Fin (WIRE_HEIGHT K)) (Fin 2.75).

Definition AREA_PER_DOT : number := Fin 40.

Section ResistorNode.

Variable K : OhmsLawConstants.

(** [Math.sqrt], which the rational numbers cannot define. *)
Variable Math_sqrt : number -> number.

Definition DOT_GRID_ROWS : number :=
  Util.roundSymmetric (JS.div (RESISTOR_HEIGHT K) (Math_sqrt AREA_PER_DOT)).

Definition DOT_GRID_COLUMNS : number :=
  Util.roundSymmetric (JS.div (RESISTOR_WIDTH K) (Math_sqrt AREA_PER_DOT)).

Definition MAX_DOTS : number := JS.mul DOT_GRID_COLUMNS DOT_GRID_ROWS.

Definition RESISTANCE_TO_NUM_DOTS : number -> number :=
  LinearFunction
    (Fin (Range.min (RESISTANCE_RANGE K)))
    (Fin (Range.max (RESISTANCE_RANGE K)))
    (JS.mul MAX_DOTS (Fin 0.05))
    MAX_DOTS
    true.

(** A dot is a [Circle]; its place on the grid stands for its centre, whose
    random displacement has no part in its visibility. *)
Record Dot : Type := { column : Z; row : Z; visible : bool }.

Definition setVisible (d : Dot) (b : bool) : Dot :=
  {| column := column d; row := row d; visible := b |}.

(** The values that [i] takes in [for ( var i = 1; i < bound; i++ )]; the
    loop does not end when the bound is [Infinity]. *)
Definition loopValues (bound : number) : option (list Z) :=
  match bound with
  | Fin c => Some (map Z.of_nat (seq 1 (Z.to_nat (Qceiling c - 1))))
  | PosInf => None
  | NegInf | NaN => Some []
  end.

(** The two nested loops that create the dots. *)
Definition createDots : option (list Dot) :=
  match loopValues DOT_GRID_COLUMNS with
  | None => None
  | Some [] => Some []
  | Some columns =>
      match loopValues DOT_GRID_ROWS with
      | None => None
      | Some rows =>
          Some (flat_map
                  (fun i => map (fun j => {| column := i; row := j;
                                             visible := true |}) rows)
                  columns)
      end
  end.

(** [phet.joist.random.shuffle] *)
Variable shuffle : list Dot -> list Dot.

(** [children.forEach( function( dot, index ) { ... } )], from [index] on. *)
Fixpoint forEachFrom (index : nat) (f : Dot -> nat -> Dot)
    (children : list Dot) : list Dot :=
  match children with
  | [] => []
  | dot :: rest => f dot index :: forEachFrom (S index) f rest
  end.

(** [dot.setVisible( index < numDotsToShow )] *)
Definition showDot (numDotsToShow : number) (dot : Dot) (index : nat) : Dot :=
  setVisible dot (JS.lt (Fin (inject_Z (Z.of_nat index))) numDotsToShow).

(** The listener linked to [resistanceProperty]. *)
Definition showDots (resistance : number) (children : list Dot) : list Dot :=
  let numDotsToShow := RESISTANCE_TO_NUM_DOTS resistance in
  forEachFrom 0 (showDot numDotsToShow) children.

(** The children of [dotsNode] once the listener has run for a
    resistance. *)
Definition dotsNodeChildren (resistance : number) : option (list Dot) :=
  match createDots with
  | None => None
  | Some dots => Some (showDots resistance (shuffle dots))
  end.

Definition numVisibleDots (resistance : number) : option nat :=
  match dotsNodeChildren resistance with
  | None => None
  | Some children => Some (List.length (filter visible children))
  end.

End ResistorNode.

(** *** The dot count in the words of the specification

    These two definitions follow the specification, not the code; they are
    what [numVisibleDots] is compared with. *)

(** The linear map that takes [lo] to [lo'] and [hi] to [hi'], at [x]. *)
Definition interpolate (lo hi lo' hi' x : Q) : Q :=
  lo' + (hi' - lo') * (x - lo) / (hi - lo).

(** How many of the indices [0], ..., [n - 1] are below [x]. *)
Definition indicesBelow (n : nat) (x : Q) : nat :=
  List.length
    (filter (fun i => JS.Qltb (inject_Z (Z.of_nat i)) x) (seq 0 n)).

(** ** The observers among the listeners of a property *)

Fixpoint observersOf (ls : list listener) : list nat :=
  match ls with
  | [] => []
  | DependencyListener :: rest => observersOf rest
  | Observer id :: rest => id :: observersOf rest
  end.

(** ** [WireBox]: the constructor measures the smallest arrow

    [model.voltageProperty.set( OhmsLawConstants.VOLTAGE_RANGE.min );
     model.resistanceProperty.set( OhmsLawConstants.RESISTANCE_RANGE.max );]
    after which the constructor reads the height of the arrow, and then
    [model.reset();].  These are the statements of the constructor that act
    on the model; the state in which the height is read is the one that
    [measuringState] returns. *)

Definition measuringState (K : OhmsLawConstants) (m : OhmsLawModel)
  : OhmsLawModel * list notification :=
  let '(m1, log1) := setVoltage (Fin (Range.min (VOLTAGE_RANGE K))) m in
  let '(m2, log2) :=
    setResistance (Fin (Range.max (RESISTANCE_RANGE K))) m1 in
  (m2, log1 ++ log2).

Definition measureMinArrowHeight (K : OhmsLawConstants) (m : OhmsLawModel)
  : outcome :=
  let '(m2, log2) := measuringState K m in
  let '(m3, log3, e) := reset m2 in
  (m3, log2 ++ log3, e).

(** ** [BatteryView]

    The constants [BATTERY_WIDTH], [BATTERY_HEIGHT] and [AA_VOLTAGE] of
    [OhmsLawConstants] are parameters.  Of the view, the width of the
    rectangle [mainBody] and the vertical centre of [batteryText] are
    modelled; the text of the label and the positions that are read from the
    bounds of the scene graph are not. *)

Record BatteryConstants : Type := {
  BATTERY_WIDTH : Q;
  BATTERY_HEIGHT : Q;
  AA_VOLTAGE : Q
}.

Module BatteryView.

Definition NUB_WIDTH (B : BatteryConstants) : number :=
  JS.mul (Fin (BATTERY_WIDTH B)) (Fin 0.05).

Definition MAIN_BODY_WIDTH (B : BatteryConstants) : number :=
  JS.mul (Fin (BATTERY_WIDTH B)) (Fin 0.87).

Definition COPPER_PORTION_WIDTH (B : BatteryConstants) : number :=
  JS.sub (JS.sub (Fin (BATTERY_WIDTH B)) (MAIN_BODY_WIDTH B)) (NUB_WIDTH B).

(** [new LinearFunction( 0.1, OhmsLawConstants.AA_VOLTAGE, 0.0001, 1, true )] *)
Definition voltageToScale (B : BatteryConstants) : number -> number :=
  LinearFunction (Fin 0.1) (Fin (AA_VOLTAGE B)) (Fin 0.0001) (Fin 1) true.

Record t : Type := {
  (** the width given to [mainBody.setRect] *)
  mainBodyWidth : number;
  (** [batteryText.centerY] *)
  batteryTextCenterY : number
}.

(** [this.setVoltage = function( voltage ) { ... }] *)
Definition setVoltage (B : BatteryConstants) (voltage : number) (self : t) : t :=
  {| mainBodyWidth := JS.mul (MAIN_BODY_WIDTH B) (voltageToScale B voltage);
     batteryTextCenterY :=
       if JS.ge voltage (Fin (AA_VOLTAGE B)) then Fin (-7)
       else if JS.ge voltage (Fin 0.1)
            then JS.sub (JS.div (JS.neg (Fin (BATTERY_HEIGHT B))) (Fin 2))
                        (Fin 12)
            else batteryTextCenterY self |}.

End BatteryView.

(** *** The clamp in the words of a specification

    [clampBetween lo hi v] is [v] brought into the interval from [lo] to
    [hi]; it is what a clamped [LinearFunction] is compared with. *)
Definition clampBetween (lo hi v : Q) : Q :=
  if JS.Qltb v lo then lo else if JS.Qltb hi v then hi else v.

(** ** Example constants *)

(** The ranges that the specification quotes: 0.1 V to 9.9 V with 4.5 V by
    default, and 10 ohms to 1000 ohms with 500 ohms by default. *)
Definition exampleConstants : OhmsLawConstants :=
  {| VOLTAGE_RANGE := Range.make 0.1 9.9 4.5;
     RESISTANCE_RANGE := Range.make 10 1000 500;
     WIRE_WIDTH := 525;
     WIRE_HEIGHT := 180;
     RELATIVE_SIZE_STRINGS :=
       [ "Tiny"; "Very small"; "Small"; "Medium size"; "Large";
         "Very large"; "Huge" ]%string |}.

(** An arrow as tall as the smallest one is 20 units high in the examples;
    one arrow between the smallest height and the threshold of 360 units,
    one above the threshold. *)
Definition exampleWireBox : WireBox :=
  {| bottomLeftArrow := {| height := Fin 100 |}; minArrowHeight := Fin 20 |}.

Definition exampleTallWireBox : WireBox :=
  {| bottomLeftArrow := {| height := Fin 400 |}; minArrowHeight := Fin 20 |}.

(** A state of the model in the examples: the resistance set to its lowest
    value and the voltage to its highest. *)
Definition exampleState : OhmsLawModel :=
  modelOf (run [SetResistance (Fin 10); SetVoltage (Fin 9.9)]
               (newOhmsLawModel exampleConstants)).

(** A shuffle for the examples. *)
Definition exampleShuffle (dots : list Dot) : list Dot := rev dots.

(** The constructed model after the voltage is set to zero. *)
Definition exampleZeroVoltageState : OhmsLawModel :=
  modelOf (step (SetVoltage (Fin 0)) (newOhmsLawModel exampleConstants)).

(** The constructed model after the voltage is set to [Infinity]. *)
Definition exampleInfiniteVoltageState : OhmsLawModel :=
  modelOf (step (SetVoltage PosInf) (newOhmsLawModel exampleConstants)).

(** A state with observers: 7 and 9 on the current, 8 on the voltage, at
    9.9 V and 10 ohms. *)
Definition exampleObservedState : OhmsLawModel :=
  modelOf (run [LazyLink current 7; LazyLink voltage 8; LazyLink current 9;
                SetVoltage (Fin 9.9); SetResistance (Fin 10)]
               (newOhmsLawModel exampleConstants)).

(** Boxes whose arrow has the smallest height and the height of the
    threshold; a box whose arrow is lower than the smallest height it
    holds; a box whose smallest height is the threshold. *)
Definition exampleSmallestWireBox : WireBox :=
  {| bottomLeftArrow := {| height := Fin 20 |}; minArrowHeight := Fin 20 |}.

Definition exampleThresholdWireBox : WireBox :=
  {| bottomLeftArrow := {| height := Fin 360 |}; minArrowHeight := Fin 20 |}.

Definition exampleShortWireBox : WireBox :=
  {| bottomLeftArrow := {| height := Fin 100 |}; minArrowHeight := Fin 200 |}.

Definition exampleDegenerateWireBox : WireBox :=
  {| bottomLeftArrow := {| height := Fin 360 |}; minArrowHeight := Fin 360 |}.

Definition exampleBatteryView : BatteryView.t :=
  {| BatteryView.mainBodyWidth := Fin (82 * 0.87);
     BatteryView.batteryTextCenterY := Fin 0 |}.

(** A battery for the examples: 82 units wide, 40 units high, 1.5 V. *)
Definition exampleBattery : BatteryConstants :=
  {| BATTERY_WIDTH := 82; BATTERY_HEIGHT := 40; AA_VOLTAGE := 1.5 |}.

(** A square root for the examples: exact on 40 up to fifteen decimals. *)
Definition exampleSqrt (a : number) : number :=
  match a with
  | Fin q => Fin (Z.sqrt (Qfloor (q * 1000000000000000000000000000000))
                  # 1000000000000000)
  | PosInf => PosInf
  | NegInf | NaN => NaN
  end.

(** * Properties of the reactive model *)

(** ** Numbers *)

Lemma same_value_refl (a : number) : same_value a a.
Proof. destruct a; simpl; auto with qarith. Qed.

Lemma same_value_sym (a b : number) : same_value a b -> same_value b a.
Proof. destruct a, b; simpl; auto with qarith. Qed.

Lemma same_value_trans (a b c : number) :
  same_value a b -> same_value b c -> same_value a c.
Proof.
  destruct a, b, c; simpl; try tauto.
  intros H1 H2. now rewrite H1.
Qed.

Lemma strict_eq_same_value (a b : number) :
  JS.strict_eq a b = true -> same_value a b.
Proof.
  destruct a, b; simpl; try discriminate; auto.
  apply Qeq_bool_eq.
Qed.

Lemma strict_eq_Fin_refl (q : Q) : JS.strict_eq (Fin q) (Fin q) = true.
Proof. simpl. apply Qeq_eq_bool. reflexivity. Qed.

Lemma Qltb_true (a b : Q) : JS.Qltb a b = true <-> a < b.
Proof.
  unfold JS.Qltb. rewrite negb_true_iff.
  split; intros H.
  - apply Qnot_le_lt. intros Hle. apply Qle_bool_iff in Hle. congruence.
  - destruct (Qle_bool b a) eqn:E; [|reflexivity].
    apply Qle_bool_iff in E. exfalso. apply (Qlt_not_le _ _ H E).
Qed.

Lemma Qltb_false (a b : Q) : JS.Qltb a b = false <-> b <= a.
Proof.
  unfold JS.Qltb. rewrite negb_false_iff. apply Qle_bool_iff.
Qed.

Lemma Qeq_bool_false (a b : Q) : ~ a == b -> Qeq_bool a b = false.
Proof.
  intros H. destruct (Qeq_bool a b) eqn:E; [|reflexivity].
  apply Qeq_bool_eq in E. contradiction.
Qed.

Lemma Qdiv_le_cross (a b c d : Q) :
  0 < b -> 0 < d -> a * d <= c * b -> a / b <= c / d.
Proof.
  intros Hb Hd H. apply Qle_shift_div_l; [exact Hd|].
  assert (E : a / b * d == a * d / b) by (field; lra).
  rewrite E. apply Qle_shift_div_r; [exact Hb|exact H].
Qed.

(** With a finite voltage and a finite, non-zero resistance the derivation
    is the quotient of the rationals. *)
Lemma derivation_Fin (v r : Q) :
  ~ r == 0 -> derivation (Fin v) (Fin r) = Fin (1000 * v / r).
Proof.
  intros H. unfold derivation. simpl. now rewrite Qeq_bool_false.
Qed.

(** ** What a notification round leaves alone *)

Lemma frame_refl (m : OhmsLawModel) : frame m m.
Proof. repeat split. Qed.

Lemma frame_trans (a b c : OhmsLawModel) : frame a b -> frame b c -> frame a c.
Proof.
  unfold frame. intros (H1 & H2 & H3 & H4 & H5) (G1 & G2 & G3 & G4 & G5).
  repeat split; congruence.
Qed.

Lemma setCurrent_frame (c : number) (m : OhmsLawModel) :
  frame m (fst (setCurrent c m)).
Proof.
  unfold setCurrent. destruct (JS.strict_eq c (value (currentProperty m)));
    simpl; repeat split.
Qed.

Lemma setCurrent_value (c : number) (m : OhmsLawModel) :
  same_value (getCurrent (fst (setCurrent c m))) c.
Proof.
  unfold setCurrent, getCurrent.
  destruct (JS.strict_eq c (value (currentProperty m))) eqn:E; simpl.
  - apply same_value_sym, strict_eq_same_value, E.
  - apply same_value_refl.
Qed.

Lemma callListener_frame n new old st l :
  frame (fst st) (fst (callListener n new old st l)).
Proof.
  destruct l as [|id]; simpl.
  - pose proof (setCurrent_frame
                  (derivation (getVoltage (fst st)) (getResistance (fst st)))
                  (fst st)) as H.
    destruct (setCurrent _ (fst st)) as [m' log]. exact H.
  - apply frame_refl.
Qed.

Lemma callListeners_frame n new old ls :
  forall st, frame (fst st) (fst (fold_left (callListener n new old) ls st)).
Proof.
  induction ls as [|l ls IH]; intros st; simpl.
  - apply frame_refl.
  - eapply frame_trans; [apply callListener_frame | apply IH].
Qed.

Lemma frame_inputs (m m' : OhmsLawModel) :
  frame m m' -> getVoltage m' = getVoltage m /\ getResistance m' = getResistance m.
Proof.
  unfold getVoltage, getResistance. intros (H1 & H2 & _). now rewrite H1, H2.
Qed.

Lemma callListener_consistent n new old st l :
  consistent (fst st) -> consistent (fst (callListener n new old st l)).
Proof.
  intros Hc. destruct l as [|id]; simpl; [|exact Hc].
  pose proof (setCurrent_frame
                (derivation (getVoltage (fst st)) (getResistance (fst st)))
                (fst st)) as Hf.
  pose proof (setCurrent_value
                (derivation (getVoltage (fst st)) (getResistance (fst st)))
                (fst st)) as Hv.
  destruct (setCurrent _ (fst st)) as [m' log]. simpl in *.
  unfold consistent. destruct (frame_inputs _ _ Hf) as [-> ->]. exact Hv.
Qed.

Lemma dependencyListener_consistent n new old st :
  consistent (fst (callListener n new old st DependencyListener)).
Proof.
  simpl.
  pose proof (setCurrent_frame
                (derivation (getVoltage (fst st)) (getResistance (fst st)))
                (fst st)) as Hf.
  pose proof (setCurrent_value
                (derivation (getVoltage (fst st)) (getResistance (fst st)))
                (fst st)) as Hv.
  destruct (setCurrent _ (fst st)) as [m' log]. simpl in *.
  unfold consistent. destruct (frame_inputs _ _ Hf) as [-> ->]. exact Hv.
Qed.

Lemma callListeners_consistent n new old ls :
  forall st, consistent (fst st) ->
             consistent (fst (fold_left (callListener n new old) ls st)).
Proof.
  induction ls as [|l ls IH]; intros st Hc; simpl; [exact Hc|].
  apply IH, callListener_consistent, Hc.
Qed.

(** A round that reaches the listener of the derived property leaves the
    derived property up to date. *)
Lemma notifyListeners_consistent n new old ls m :
  In DependencyListener ls ->
  consistent (fst (notifyListeners n new old ls m)).
Proof.
  unfold notifyListeners. generalize (m, @nil notification).
  induction ls as [|l ls IH]; intros st Hin; simpl; [destruct Hin|].
  destruct Hin as [-> | Hin].
  - apply callListeners_consistent, dependencyListener_consistent.
  - apply IH, Hin.
Qed.

Lemma notifyListeners_frame n new old ls m :
  frame m (fst (notifyListeners n new old ls m)).
Proof. unfold notifyListeners. apply (callListeners_frame n new old ls (m, [])). Qed.

(** ** The two setters *)

Lemma setVoltage_spec (v : number) (m : OhmsLawModel) :
  let m' := fst (setVoltage v m) in
  same_value (getVoltage m') v /\
  (getVoltage m' = getVoltage m \/ getVoltage m' = v) /\
  initialValue (voltageProperty m') = initialValue (voltageProperty m) /\
  listeners (voltageProperty m') = listeners (voltageProperty m) /\
  resistanceProperty m' = resistanceProperty m /\
  soundActiveProperty m' = soundActiveProperty m /\
  listeners (currentProperty m') = listeners (currentProperty m) /\
  initialValue (currentProperty m') = initialValue (currentProperty m).
Proof.
  unfold setVoltage.
  destruct (JS.strict_eq v (value (voltageProperty m))) eqn:E; simpl.
  - repeat split; auto.
    apply same_value_sym, strict_eq_same_value, E.
  - pose proof (notifyListeners_frame voltage v (value (voltageProperty m))
                  (listeners (voltageProperty m))
                  (withVoltage m (withValue (voltageProperty m) v)))
      as (H1 & H2 & H3 & H4 & H5).
    unfold getVoltage. rewrite H1, H2, H3, H4, H5. simpl.
    repeat split; auto. apply same_value_refl.
Qed.

Lemma setResistance_spec (r : number) (m : OhmsLawModel) :
  let m' := fst (setResistance r m) in
  same_value (getResistance m') r /\
  (getResistance m' = getResistance m \/ getResistance m' = r) /\
  initialValue (resistanceProperty m') = initialValue (resistanceProperty m) /\
  listeners (resistanceProperty m') = listeners (resistanceProperty m) /\
  voltageProperty m' = voltageProperty m /\
  soundActiveProperty m' = soundActiveProperty m /\
  listeners (currentProperty m') = listeners (currentProperty m) /\
  initialValue (currentProperty m') = initialValue (currentProperty m).
Proof.
  unfold setResistance.
  destruct (JS.strict_eq r (value (resistanceProperty m))) eqn:E; simpl.
  - repeat split; auto.
    apply same_value_sym, strict_eq_same_value, E.
  - pose proof (notifyListeners_frame resistance r
                  (value (resistanceProperty m))
                  (listeners (resistanceProperty m))
                  (withResistance m (withValue (resistanceProperty m) r)))
      as (H1 & H2 & H3 & H4 & H5).
    unfold getResistance. rewrite H1, H2, H3, H4, H5. simpl.
    repeat split; auto. apply same_value_refl.
Qed.

Lemma setVoltage_consistent (v : number) (m : OhmsLawModel) :
  In DependencyListener (listeners (voltageProperty m)) ->
  consistent m -> consistent (fst (setVoltage v m)).
Proof.
  intros Hin Hc. unfold setVoltage.
  destruct (JS.strict_eq v (value (voltageProperty m))); simpl; [exact Hc|].
  apply notifyListeners_consistent, Hin.
Qed.

Lemma setResistance_consistent (r : number) (m : OhmsLawModel) :
  In DependencyListener (listeners (resistanceProperty m)) ->
  consistent m -> consistent (fst (setResistance r m)).
Proof.
  intros Hin Hc. unfold setResistance.
  destruct (JS.strict_eq r (value (resistanceProperty m))); simpl; [exact Hc|].
  apply notifyListeners_consistent, Hin.
Qed.

(** ** The invariant of the reachable states *)

Lemma invariant_voltage_In K m :
  invariant K m -> In DependencyListener (listeners (voltageProperty m)).
Proof. intros [[ids ->] _ _ _ _ _]. now left. Qed.

Lemma invariant_resistance_In K m :
  invariant K m -> In DependencyListener (listeners (resistanceProperty m)).
Proof. intros [_ [ids ->] _ _ _ _]. now left. Qed.

Lemma invariant_new K : invariant K (newOhmsLawModel K).
Proof.
  constructor; simpl; auto.
  - now exists [].
  - now exists [].
  - apply same_value_refl.
Qed.

Lemma invariant_setVoltage K m (v : number) :
  invariant K m -> invariant K (fst (setVoltage v m)).
Proof.
  intros I.
  pose proof (setVoltage_spec v m) as (_ & Hv & Hi & Hl & Hr & Hs & _).
  pose proof (setVoltage_consistent v m (invariant_voltage_In K m I)
                (inv_consistent K m I)) as Hc.
  destruct I as [I1 I2 I3 I4 I5 I6].
  constructor; auto.
  - now rewrite Hl.
  - now rewrite Hr.
  - congruence.
  - congruence.
  - now rewrite Hr.
Qed.

Lemma invariant_setResistance K m (r : number) :
  invariant K m -> invariant K (fst (setResistance r m)).
Proof.
  intros I.
  pose proof (setResistance_spec r m) as (_ & Hv & Hi & Hl & Hr & Hs & _).
  pose proof (setResistance_consistent r m
                (invariant_resistance_In K m I) (inv_consistent K m I)) as Hc.
  destruct I as [I1 I2 I3 I4 I5 I6].
  constructor; auto.
  - now rewrite Hr.
  - now rewrite Hl.
  - congruence.
  - now rewrite Hr.
  - congruence.
Qed.

Lemma invariant_lazyLink K m n id :
  invariant K m -> invariant K (lazyLink n id m).
Proof.
  intros [[vs I1] [rs I2] I3 I4 I5 I6].
  destruct n; constructor; simpl; auto; try (now exists vs); try (now exists rs).
  - exists (vs ++ [id]). rewrite I1, map_app. reflexivity.
  - exists (rs ++ [id]). rewrite I2, map_app. reflexivity.
Qed.

(** What [reset] leaves is what the two [Property.reset] calls leave. *)
Lemma reset_model (m : OhmsLawModel) :
  soundActiveProperty m = None ->
  reset m
  = (fst (setResistance (initialValue (resistanceProperty m))
            (fst (setVoltage (initialValue (voltageProperty m)) m))),
     snd (setVoltage (initialValue (voltageProperty m)) m)
     ++ snd (setResistance (initialValue (resistanceProperty m))
               (fst (setVoltage (initialValue (voltageProperty m)) m))),
     Throw TypeError).
Proof.
  intros Hs. unfold reset.
  pose proof (setVoltage_spec (initialValue (voltageProperty m)) m)
    as (_ & _ & _ & _ & Hr & Hs1 & _).
  destruct (setVoltage (initialValue (voltageProperty m)) m) as [m1 log1].
  simpl in *. rewrite Hr.
  pose proof (setResistance_spec (initialValue (resistanceProperty m)) m1)
    as (_ & _ & _ & _ & _ & Hs2 & _).
  destruct (setResistance (initialValue (resistanceProperty m)) m1)
    as [m2 log2].
  simpl in *. rewrite Hs2, Hs1, Hs. reflexivity.
Qed.

Lemma invariant_reset K m : invariant K m -> invariant K (modelOf (reset m)).
Proof.
  intros I. rewrite (reset_model m (inv_sound K m I)). unfold modelOf. simpl.
  rewrite (inv_voltage_initial K m I), (inv_resistance_initial K m I).
  apply invariant_setResistance, invariant_setVoltage, I.
Qed.

Lemma invariant_step K c m : invariant K m -> invariant K (modelOf (step c m)).
Proof.
  intros I. destruct c; unfold modelOf; simpl.
  - apply invariant_setVoltage, I.
  - apply invariant_setResistance, I.
  - apply invariant_lazyLink, I.
  - apply invariant_lazyLink, I.
  - apply invariant_reset, I.
Qed.

Lemma reachable_invariant K m : reachable K m -> invariant K m.
Proof.
  induction 1 as [|c m _ IH].
  - apply invariant_new.
  - apply invariant_step, IH.
Qed.

Lemma derivation_Fin_compat (v v' r r' : Q) :
  v == v' -> r == r' ->
  same_value (derivation (Fin v) (Fin r)) (derivation (Fin v') (Fin r')).
Proof.
  intros Hv Hr. unfold derivation. simpl.
  assert (E1 : Qeq_bool r 0 = Qeq_bool r' 0).
  { destruct (Qeq_bool r 0) eqn:A, (Qeq_bool r' 0) eqn:B; auto.
    - apply Qeq_bool_eq in A. rewrite Hr in A. apply Qeq_eq_bool in A. congruence.
    - apply Qeq_bool_eq in B. rewrite <- Hr in B. apply Qeq_eq_bool in B.
      congruence. }
  assert (E2 : Qeq_bool (1000 * v) 0 = Qeq_bool (1000 * v') 0).
  { destruct (Qeq_bool (1000 * v) 0) eqn:A, (Qeq_bool (1000 * v') 0) eqn:B; auto.
    - apply Qeq_bool_eq in A. rewrite Hv in A. apply Qeq_eq_bool in A. congruence.
    - apply Qeq_bool_eq in B. rewrite <- Hv in B. apply Qeq_eq_bool in B.
      congruence. }
  assert (E3 : JS.Qltb 0 (1000 * v) = JS.Qltb 0 (1000 * v')).
  { destruct (JS.Qltb 0 (1000 * v)) eqn:A, (JS.Qltb 0 (1000 * v')) eqn:B; auto.
    - apply Qltb_true in A. apply Qltb_false in B. lra.
    - apply Qltb_true in B. apply Qltb_false in A. lra. }
  rewrite <- E1, <- E2. unfold JS.inf_like. rewrite <- E3.
  destruct (Qeq_bool r 0); simpl.
  - destruct (Qeq_bool (1000 * v) 0); simpl; auto.
    destruct (JS.Qltb 0 (1000 * v)); simpl; auto.
  - now rewrite Hv, Hr.
Qed.

Lemma isFinite_Fin (a : number) : JS.isFinite a = true -> exists q, a = Fin q.
Proof. destruct a; simpl; try discriminate. now exists q. Qed.

Lemma same_value_Fin (a : number) (q : Q) :
  same_value a (Fin q) -> exists x, a = Fin x /\ x == q.
Proof. destruct a; simpl; try tauto. intros H. now exists q0. Qed.

Lemma same_value_strict_eq (q : Q) (b : number) :
  same_value b (Fin q) -> JS.strict_eq (Fin q) b = true.
Proof.
  intros H. apply same_value_Fin in H as (x & -> & Hx). simpl.
  apply Qeq_eq_bool. now symmetry.
Qed.

(** What [reset] leaves, and how it ends. *)
Lemma reset_outcome (K : OhmsLawConstants) (m : OhmsLawModel) :
  invariant K m ->
  same_value (getVoltage (modelOf (reset m)))
             (Range.getDefaultValue (VOLTAGE_RANGE K)) /\
  same_value (getResistance (modelOf (reset m)))
             (Range.getDefaultValue (RESISTANCE_RANGE K)) /\
  same_value (getCurrent (modelOf (reset m)))
             (derivation (Range.getDefaultValue (VOLTAGE_RANGE K))
                         (Range.getDefaultValue (RESISTANCE_RANGE K))) /\
  completionOf (reset m) = Throw TypeError.
Proof.
  intros I.
  pose proof (invariant_reset K m I) as I'.
  rewrite (reset_model m (inv_sound K m I)) in *.
  unfold modelOf, completionOf in *. simpl in *.
  rewrite (inv_voltage_initial K m I), (inv_resistance_initial K m I) in *.
  set (dv := Range.defaultValue (VOLTAGE_RANGE K)) in *.
  set (dr := Range.defaultValue (RESISTANCE_RANGE K)) in *.
  set (m1 := fst (setVoltage (Fin dv) m)) in *.
  set (m2 := fst (setResistance (Fin dr) m1)) in *.
  assert (Hv : same_value (getVoltage m2) (Fin dv)).
  { pose proof (setVoltage_spec (Fin dv) m) as (H1 & _).
    pose proof (setResistance_spec (Fin dr) m1) as (_ & _ & _ & _ & H2 & _).
    fold m1 in H1. fold m2 in H2. unfold getVoltage in *. now rewrite H2. }
  assert (Hr : same_value (getResistance m2) (Fin dr)).
  { pose proof (setResistance_spec (Fin dr) m1) as (H1 & _). exact H1. }
  unfold Range.getDefaultValue. fold dv dr.
  repeat split; auto.
  pose proof (inv_consistent K m2 I') as Hc. unfold consistent in Hc.
  apply same_value_Fin in Hv as (v & Ev & Hv).
  apply same_value_Fin in Hr as (r & Er & Hr).
  rewrite Ev, Er in Hc.
  eapply same_value_trans; [exact Hc|].
  now apply derivation_Fin_compat.
Qed.

Lemma reachable_run K (cs : list call) :
  forall m, reachable K m -> reachable K (modelOf (run cs m)).
Proof.
  induction cs as [|c cs IH]; intros m Hm; simpl; [exact Hm|].
  pose proof (reachable_step K c m Hm) as Hstep.
  destruct (step c m) as [[m1 log1] [u|e]]; unfold modelOf in *; simpl in *.
  - specialize (IH m1 Hstep).
    destruct (run cs m1) as [[m2 log2] e2]. exact IH.
  - exact Hstep.
Qed.

(** ** The claims about the model *)

(** C1.  For every voltage within the voltage range and every resistance
    within the resistance range and positive: in every state that the model
    reaches with these two values the derived current is
    [1000 * voltage / resistance], and setting the two values, from any state
    that the model reaches, leaves the derived current at
    [1000 * voltage / resistance]. *)
Theorem current_is_derived_from_inputs
    (K : OhmsLawConstants) (m : OhmsLawModel) (v r : Q) :
  reachable K m ->
  Range.contains (VOLTAGE_RANGE K) v ->
  Range.contains (RESISTANCE_RANGE K) r ->
  0 < r ->
  (getVoltage m = Fin v -> getResistance m = Fin r ->
   same_value (getCurrent m) (Fin (1000 * v / r))) /\
  same_value
    (getCurrent (modelOf (run [SetVoltage (Fin v); SetResistance (Fin r)] m)))
    (Fin (1000 * v / r)).
Proof.
  intros Hreach _ _ Hpos. split.
  - intros Hv Hr.
    pose proof (inv_consistent K m (reachable_invariant K m Hreach)) as Hc.
    unfold consistent in Hc. rewrite Hv, Hr in Hc.
    rewrite derivation_Fin in Hc; [exact Hc|]. lra.
  - pose proof (reachable_run K [SetVoltage (Fin v); SetResistance (Fin r)]
                  m Hreach) as Hreach'.
    pose proof (inv_consistent K _ (reachable_invariant K _ Hreach')) as Hc.
    unfold consistent in Hc.
    set (m' := modelOf (run [SetVoltage (Fin v); SetResistance (Fin r)] m))
      in *.
    assert (Hv : same_value (getVoltage m') (Fin v)).
    { pose proof (setVoltage_spec (Fin v) m) as (H1 & _).
      pose proof (setResistance_spec (Fin r) (fst (setVoltage (Fin v) m)))
        as (_ & _ & _ & _ & H2 & _).
      unfold m', modelOf. simpl.
      destruct (setVoltage (Fin v) m) as [m1 log1]. simpl in *.
      destruct (setResistance (Fin r) m1) as [m2 log2]. simpl in *.
      unfold getVoltage in *. now rewrite H2. }
    assert (Hr : same_value (getResistance m') (Fin r)).
    { pose proof (setResistance_spec (Fin r) (fst (setVoltage (Fin v) m)))
        as (H1 & _).
      unfold m', modelOf. simpl.
      destruct (setVoltage (Fin v) m) as [m1 log1]. simpl in *.
      destruct (setResistance (Fin r) m1) as [m2 log2]. simpl in *.
      exact H1. }
    apply same_value_Fin in Hv as (v' & Ev & Hv).
    apply same_value_Fin in Hr as (r' & Er & Hr).
    rewrite Ev, Er in Hc.
    eapply same_value_trans; [exact Hc|].
    rewrite <- (derivation_Fin v r) by lra.
    now apply derivation_Fin_compat.
Qed.

(** C2.  In every state that the model reaches, [reset] leaves the voltage
    and the resistance at their default values and the current derived from
    them, and then throws a [TypeError] instead of returning: it calls
    [reset] on [soundActiveProperty], which the constructor never defines. *)
Theorem reset_restores_defaults_then_throws
    (K : OhmsLawConstants) (m : OhmsLawModel) :
  reachable K m ->
  same_value (getVoltage (modelOf (reset m)))
             (Range.getDefaultValue (VOLTAGE_RANGE K)) /\
  same_value (getResistance (modelOf (reset m)))
             (Range.getDefaultValue (RESISTANCE_RANGE K)) /\
  same_value (getCurrent (modelOf (reset m)))
             (derivation (Range.getDefaultValue (VOLTAGE_RANGE K))
                         (Range.getDefaultValue (RESISTANCE_RANGE K))) /\
  completionOf (reset m) = Throw TypeError.
Proof.
  intros Hreach. apply reset_outcome, reachable_invariant, Hreach.
Qed.

(** C3, as amended.  A setter never raises an error and never clamps: for
    every input, inside the configured range or outside, finite or not, the
    value stored is the input itself. *)
Theorem setters_store_the_input_unclamped (m : OhmsLawModel) (x : number) :
  (completionOf (step (SetVoltage x) m) = Normal tt /\
   same_value (getVoltage (modelOf (step (SetVoltage x) m))) x) /\
  (completionOf (step (SetResistance x) m) = Normal tt /\
   same_value (getResistance (modelOf (step (SetResistance x) m))) x).
Proof.
  unfold completionOf, modelOf. simpl. repeat split.
  - apply (setVoltage_spec x m).
  - apply (setResistance_spec x m).
Qed.

(** C5.  Setting the voltage leaves the resistance unchanged, and setting
    the resistance leaves the voltage unchanged. *)
Theorem setters_are_independent (m : OhmsLawModel) (v r : number) :
  getResistance (fst (setVoltage v m)) = getResistance m /\
  getVoltage (fst (setResistance r m)) = getVoltage m.
Proof.
  pose proof (setVoltage_spec v m) as (_ & _ & _ & _ & H1 & _).
  pose proof (setResistance_spec r m) as (_ & _ & _ & _ & H2 & _).
  unfold getResistance, getVoltage. now rewrite H1, H2.
Qed.

(** C6, as amended.  In every state that the model reaches with the voltage
    within the voltage range and the resistance within the resistance range,
    the lower bound of the resistance range being positive: the divisor of
    the derivation is not zero, and the derived current is a finite number,
    of a magnitude that is at most [1000 * (|Vmin| + |Vmax|) / Rmin]. *)
Theorem current_is_finite
    (K : OhmsLawConstants) (m : OhmsLawModel) (v r : Q) :
  reachable K m ->
  getVoltage m = Fin v ->
  Range.contains (VOLTAGE_RANGE K) v ->
  getResistance m = Fin r ->
  Range.contains (RESISTANCE_RANGE K) r ->
  0 < Range.min (RESISTANCE_RANGE K) ->
  JS.strict_eq (getResistance m) (Fin 0) = false /\
  JS.isFinite (derivation (getVoltage m) (getResistance m)) = true /\
  JS.isFinite (getCurrent m) = true /\
  exists c : Q,
    getCurrent m = Fin c /\
    Qabs c <= 1000 * (Qabs (Range.min (VOLTAGE_RANGE K))
                      + Qabs (Range.max (VOLTAGE_RANGE K)))
              / Range.min (RESISTANCE_RANGE K).
Proof.
  intros Hreach Hv [Hvlo Hvhi] Hr [Hlo _] Hmin.
  pose proof (reachable_invariant K m Hreach) as I.
  assert (Hnz : ~ r == 0) by lra.
  pose proof (inv_consistent K m I) as Hc. unfold consistent in Hc.
  rewrite Hv, Hr in *. rewrite derivation_Fin in * by exact Hnz.
  apply same_value_Fin in Hc as (c & Ec & Hc). rewrite Ec.
  split; [simpl; now apply Qeq_bool_false|].
  split; [reflexivity|]. split; [reflexivity|].
  exists c. split; [reflexivity|].
  set (lo := Range.min (VOLTAGE_RANGE K)) in *.
  set (hi := Range.max (VOLTAGE_RANGE K)) in *.
  set (rmin := Range.min (RESISTANCE_RANGE K)) in *.
  pose proof (Qabs_nonneg lo) as N1. pose proof (Qabs_nonneg hi) as N2.
  pose proof (Qle_Qabs hi) as U.
  pose proof (Qle_Qabs (- lo)) as L. rewrite Qabs_opp in L.
  rewrite Hc. apply Qabs_Qle_condition. split.
  - assert (G : 1000 * (- v) / r <= 1000 * (Qabs lo + Qabs hi) / rmin).
    { apply Qdiv_le_cross; [lra | lra |].
      destruct (Qlt_le_dec 0 (- v)) as [P|P]; nra. }
    assert (E : 1000 * (- v) / r == - (1000 * v / r)) by (field; lra).
    rewrite E in G. lra.
  - apply Qdiv_le_cross; [lra | lra |].
    destruct (Qlt_le_dec 0 v) as [P|P]; nra.
Qed.

(** C7.  In every state that the model reaches, two calls of [reset] in
    succession leave the state that one call leaves: as two statements, the
    second of which the exception of the first skips, and as two calls whose
    exceptions are caught. *)
Theorem reset_twice_is_reset_once (K : OhmsLawConstants) (m : OhmsLawModel) :
  reachable K m ->
  modelOf (run [Reset; Reset] m) = modelOf (reset m) /\
  modelOf (reset (modelOf (reset m))) = modelOf (reset m).
Proof.
  intros Hreach.
  pose proof (reachable_invariant K m Hreach) as I.
  pose proof (reset_outcome K m I) as (Hv & Hr & _ & _).
  pose proof (invariant_reset K m I) as I'.
  split.
  - simpl. rewrite (reset_model m (inv_sound K m I)). reflexivity.
  - set (m' := modelOf (reset m)) in *.
    rewrite (reset_model m' (inv_sound K m' I')).
    rewrite (inv_voltage_initial K m' I'), (inv_resistance_initial K m' I').
    unfold modelOf at 1. simpl.
    assert (E1 : setVoltage (Fin (Range.defaultValue (VOLTAGE_RANGE K))) m'
                 = (m', [])).
    { unfold setVoltage. fold (getVoltage m').
      now rewrite (same_value_strict_eq _ _ Hv). }
    rewrite E1. simpl.
    unfold setResistance. fold (getResistance m').
    now rewrite (same_value_strict_eq _ _ Hr).
Qed.

(** ** The log of a notification round *)

Lemma callListeners_observers n new old ids :
  forall st,
    fold_left (callListener n new old) (map Observer ids) st
    = (fst st, snd st ++ map (notice n new (Some old)) ids).
Proof.
  induction ids as [|id ids IH]; intros [m log]; simpl.
  - now rewrite app_nil_r.
  - rewrite IH. simpl. now rewrite <- app_assoc.
Qed.

Lemma callsTo_app id n log1 log2 :
  callsTo id n (log1 ++ log2) = callsTo id n log1 ++ callsTo id n log2.
Proof. unfold callsTo. apply filter_app. Qed.

Lemma callsTo_other_property id n n' new old ids :
  name_eqb n' n = false ->
  callsTo id n (map (notice n' new old) ids) = [].
Proof.
  intros Hn. induction ids as [|i ids IH]; simpl; [reflexivity|].
  rewrite Hn, andb_false_r. exact IH.
Qed.

Lemma callsTo_absent id n new old ids :
  ~ In id ids -> callsTo id n (map (notice n new old) ids) = [].
Proof.
  induction ids as [|i ids IH]; simpl; intros Hin; [reflexivity|].
  destruct (Nat.eqb_spec i id) as [->|Hne]; simpl.
  - exfalso. apply Hin. now left.
  - apply IH. intros H. apply Hin. now right.
Qed.

Lemma callsTo_registered_last id new old ids :
  ~ In id ids ->
  callsTo id current (map (notice current new old) (ids ++ [id]))
  = [notice current new old id].
Proof.
  intros Hin. rewrite map_app, callsTo_app, callsTo_absent by exact Hin.
  simpl. now rewrite Nat.eqb_refl.
Qed.

(** C4, as amended.  In every state that the model reaches, an observer
    subscribed to the current and the voltage then set to [x]: the observer
    is called exactly once when the derived current changes, with the
    current derived from the new voltage and the present resistance, and it
    is not called when [x] is the present voltage or the derived current
    stays the same. *)
Theorem current_observer_called_once_per_change
    (K : OhmsLawConstants) (m : OhmsLawModel) (id : nat) (x : number) :
  reachable K m ->
  ~ In id (listeners (currentProperty m)) ->
  callsTo id current (snd (setVoltage x (lazyLink current id m)))
  = if JS.strict_eq x (getVoltage m)
       || JS.strict_eq (derivation x (getResistance m)) (getCurrent m)
    then []
    else [ {| observer := id; property := current;
              newValue := derivation x (getResistance m);
              oldValue := Some (getCurrent m) |} ].
Proof.
  intros Hreach Hfresh.
  destruct (inv_voltage_listeners K m (reachable_invariant K m Hreach))
    as [ids Hls].
  unfold setVoltage. simpl. fold (getVoltage m).
  destruct (JS.strict_eq x (getVoltage m)); simpl; [reflexivity|].
  rewrite Hls. unfold notifyListeners. simpl.
  unfold setCurrent, getVoltage, getResistance. simpl.
  fold (getResistance m). fold (getCurrent m).
  destruct (JS.strict_eq (derivation x (getResistance m)) (getCurrent m));
    rewrite callListeners_observers; simpl.
  - now apply callsTo_other_property.
  - rewrite callsTo_app, callsTo_other_property, app_nil_r by reflexivity.
    now apply (callsTo_registered_last id).
Qed.
(** * Properties of the arrow-size description *)

Lemma linear_Fin (a1 a2 b1 b2 a3 : Q) :
  ~ a2 == a1 ->
  Util.linear (Fin a1) (Fin a2) (Fin b1) (Fin b2) (Fin a3)
  = Fin ((b2 + - b1) / (a2 + - a1) * (a3 + - a1) + b1).
Proof.
  intros H. unfold Util.linear. simpl.
  rewrite Qeq_bool_false; [reflexivity|]. lra.
Qed.

Lemma Qltb_compat (x x' y y' : Q) :
  x == x' -> y == y' -> JS.Qltb x y = JS.Qltb x' y'.
Proof.
  intros Hx Hy.
  destruct (JS.Qltb x y) eqn:A, (JS.Qltb x' y') eqn:B; auto.
  - apply Qltb_true in A. apply Qltb_false in B. lra.
  - apply Qltb_true in B. apply Qltb_false in A. lra.
Qed.

(** [Util.roundSymmetric] rounds a finite number half away from zero. *)
Lemma roundSymmetric_Fin (x x' : Q) :
  x == x' ->
  same_value (Util.roundSymmetric (Fin x)) (Fin (inject_Z (roundHalfAway x'))).
Proof.
  intros Hx. unfold Util.roundSymmetric, roundHalfAway.
  unfold JS.lt, Math.abs, Math.round.
  rewrite (Qltb_compat x x' 0 0 Hx (Qeq_refl 0)).
  destruct (JS.Qltb x' 0) eqn:E; unfold JS.mul, same_value.
  - apply Qltb_true in E.
    rewrite (Qfloor_comp (Qabs x + (1 # 2)) (- x' + (1 # 2))).
    + rewrite inject_Z_opp. ring.
    + rewrite Qabs_neg by lra. now rewrite Hx.
  - apply Qltb_false in E.
    rewrite (Qfloor_comp (Qabs x + (1 # 2)) (x' + (1 # 2))).
    + ring.
    + rewrite Qabs_pos by lra. now rewrite Hx.
Qed.

Lemma Qfloor_inject_Z_eq (q : Q) (z : Z) : q == inject_Z z -> Qfloor q = z.
Proof. intros H. rewrite (Qfloor_comp _ _ H). apply Qfloor_Z. Qed.

(** Reading an array at an integer. *)
Lemma array_get_integer {A : Type} (l : list A) (i : number) (z : Z) :
  same_value i (Fin (inject_Z z)) ->
  JS.array_get l i
  = if (0 <=? z)%Z then nth_error l (Z.to_nat z) else None.
Proof.
  intros H. apply same_value_Fin in H as (q & -> & Hq). simpl.
  rewrite (Qfloor_inject_Z_eq q z Hq).
  rewrite (Qeq_eq_bool _ _ Hq). reflexivity.
Qed.

Lemma indexInBounds_integer K (i : number) (z : Z) :
  same_value i (Fin (inject_Z z)) ->
  indexInBounds K i
  = (0 <=? z)%Z && (z <? Z.of_nat (List.length (RELATIVE_SIZE_STRINGS K)))%Z.
Proof.
  intros H. apply same_value_Fin in H as (q & -> & Hq).
  unfold indexInBounds. simpl.
  f_equal.
  - destruct (Z.leb_spec 0 z) as [L|L].
    + apply negb_true_iff, Qltb_false. rewrite Hq.
      change (inject_Z 0 <= inject_Z z). rewrite <- Zle_Qle. exact L.
    + apply negb_false_iff, Qltb_true. rewrite Hq.
      change (inject_Z z < inject_Z 0). rewrite <- Zlt_Qlt. exact L.
  - destruct (Z.ltb_spec z (Z.of_nat (List.length (RELATIVE_SIZE_STRINGS K))))
      as [L|L].
    + apply Qltb_true. rewrite Hq. rewrite <- Zlt_Qlt. exact L.
    + apply Qltb_false. rewrite Hq. rewrite <- Zle_Qle. exact L.
Qed.

(** The index of the code is the index of the specification. *)
Lemma arrowSizeIndex_described K self (a h : Q) :
  minArrowHeight self = Fin a ->
  height (bottomLeftArrow self) = Fin h ->
  ~ a == WIRE_HEIGHT K * 2 \/ WIRE_HEIGHT K * 2 < h ->
  same_value
    (arrowSizeIndex K self)
    (Fin (inject_Z (describedIndex (List.length (RELATIVE_SIZE_STRINGS K))
                                   a (WIRE_HEIGHT K * 2) h))).
Proof.
  intros Ha Hh Hcfg. unfold arrowSizeIndex, describedIndex.
  rewrite Ha, Hh. unfold maxArrowHeightThreshold, HEIGHT. simpl.
  destruct (JS.Qltb (WIRE_HEIGHT K * 2) h) eqn:E.
  - unfold same_value, Z.sub. rewrite inject_Z_plus. reflexivity.
  - destruct Hcfg as [Hne | Hlt]; [|apply Qltb_true in Hlt; congruence].
    rewrite linear_Fin by (intros H; apply Hne; now symmetry).
    apply roundSymmetric_Fin.
    unfold Z.sub. rewrite inject_Z_plus.
    change (inject_Z (- (1))%Z) with (- (1)).
    generalize (inject_Z (Z.of_nat (List.length (RELATIVE_SIZE_STRINGS K)))).
    intros n. field. intros H. apply Hne. lra.
Qed.

(** What the function returns, from the integer that the index is. *)
Lemma getArrowSizeDescription_integer K assert self (z : Z) :
  same_value (arrowSizeIndex K self) (Fin (inject_Z z)) ->
  getArrowSizeDescription K assert self
  = match (if (0 <=? z)%Z
           then option_map JS.toLowerCase
                  (nth_error (RELATIVE_SIZE_STRINGS K) (Z.to_nat z))
           else None) with
    | Some s => Normal s
    | None => Throw (if assert then AssertionError else TypeError)
    end.
Proof.
  intros H. unfold getArrowSizeDescription.
  rewrite (indexInBounds_integer K _ z H), (array_get_integer _ _ z H).
  destruct (Z.leb_spec 0 z) as [L|L]; simpl.
  - destruct (Z.ltb_spec z (Z.of_nat (List.length (RELATIVE_SIZE_STRINGS K))))
      as [U|U]; simpl.
    + rewrite andb_false_r.
      destruct (nth_error (RELATIVE_SIZE_STRINGS K) (Z.to_nat z)) eqn:N;
        [reflexivity|].
      apply nth_error_None in N. lia.
    + assert (N : nth_error (RELATIVE_SIZE_STRINGS K) (Z.to_nat z) = None).
      { apply nth_error_None. lia. }
      rewrite N. destruct assert; reflexivity.
  - destruct assert; reflexivity.
Qed.

(** The described index of a height between the smallest arrow height and
    the threshold, or above the threshold, is an index of the list. *)
Lemma describedIndex_in_bounds (n : nat) (a t h : Q) :
  (1 <= n)%nat -> ~ a == t -> a <= h ->
  (0 <= describedIndex n a t h < Z.of_nat n)%Z.
Proof.
  intros Hn Hne Hah. unfold describedIndex.
  destruct (JS.Qltb t h) eqn:E; [lia|].
  apply Qltb_false in E.
  assert (Hat : a < t).
  { destruct (Qlt_le_dec a t) as [L|L]; [exact L|].
    exfalso. apply Hne. lra. }
  set (k := inject_Z (Z.of_nat n - 1)).
  assert (Hk : 0 <= k).
  { unfold k. change 0 with (inject_Z 0). rewrite <- Zle_Qle. lia. }
  set (x := k * (h - a) / (t - a)).
  assert (Hx : 0 <= x /\ x <= k).
  { unfold x. split.
    - apply Qle_shift_div_l; [lra|]. nra.
    - apply Qle_shift_div_r; [lra|]. nra. }
  destruct Hx as [Hx0 Hx1].
  unfold roundHalfAway.
  assert (F : JS.Qltb x 0 = false) by (apply Qltb_false; exact Hx0).
  rewrite F. split.
  - change 0%Z with (Qfloor 0). apply Qfloor_resp_le. lra.
  - assert (B : inject_Z (Qfloor (x + (1 # 2))) < inject_Z (Z.of_nat n)).
    { eapply Qle_lt_trans; [apply Qfloor_le|].
      replace (Z.of_nat n) with ((Z.of_nat n - 1) + 1)%Z by lia.
      rewrite inject_Z_plus. fold k. change (inject_Z 1) with 1. lra. }
    rewrite <- Zlt_Qlt in B. exact B.
Qed.

Lemma nth_error_last {A : Type} (l : list A) (d : A) :
  l <> [] -> nth_error l (List.length l - 1) = Some (last l d).
Proof.
  induction l as [|x l IH]; intros H; [contradiction|].
  destruct l as [|y l]; [reflexivity|].
  replace (List.length (x :: y :: l) - 1)%nat
    with (S (List.length (y :: l) - 1)) by (simpl; lia).
  change (nth_error (y :: l) (List.length (y :: l) - 1)
          = Some (last (y :: l) d)).
  apply IH. discriminate.
Qed.

Lemma arrowSizeIndex_above K self (h : Q) :
  height (bottomLeftArrow self) = Fin h ->
  WIRE_HEIGHT K * 2 < h ->
  arrowSizeIndex K self
  = JS.sub (JS.length (RELATIVE_SIZE_STRINGS K)) (Fin 1).
Proof.
  intros Hh Hlt. unfold arrowSizeIndex. rewrite Hh.
  unfold maxArrowHeightThreshold, HEIGHT, maxArrowHeightThresholdCoefficient.
  unfold JS.gt. simpl JS.lt.
  apply Qltb_true in Hlt. now rewrite Hlt.
Qed.

(** ** The claims about the description *)

(** C8, as amended.  For every finite arrow height the description is the
    string of the list at the index that the specification describes (the
    height mapped linearly from the interval between the smallest arrow
    height and the threshold onto the indices, rounded, and the last index
    above the threshold), converted to lower case; an index outside the list
    makes the function throw.  For every height above the threshold, twice
    the wire height, the description is the last string of the list in lower
    case. *)
Theorem arrow_size_description_is_lower_cased_entry
    (K : OhmsLawConstants) (assert : bool) (self : WireBox) (h : Q) :
  height (bottomLeftArrow self) = Fin h ->
  (forall a : Q,
      minArrowHeight self = Fin a ->
      ~ a == WIRE_HEIGHT K * 2 ->
      getArrowSizeDescription K assert self
      = match describedSize (RELATIVE_SIZE_STRINGS K) a (WIRE_HEIGHT K * 2) h
        with
        | Some s => Normal s
        | None => Throw (if assert then AssertionError else TypeError)
        end) /\
  (WIRE_HEIGHT K * 2 < h ->
   RELATIVE_SIZE_STRINGS K <> [] ->
   getArrowSizeDescription K assert self
   = Normal (JS.toLowerCase (last (RELATIVE_SIZE_STRINGS K) EmptyString))).
Proof.
  intros Hh. split.
  - intros a Ha Hne. unfold describedSize.
    apply getArrowSizeDescription_integer.
    apply arrowSizeIndex_described; auto.
  - intros Hlt Hne.
    set (n := List.length (RELATIVE_SIZE_STRINGS K)).
    assert (Hn : (1 <= n)%nat).
    { unfold n. destruct (RELATIVE_SIZE_STRINGS K); [contradiction|simpl; lia]. }
    rewrite (getArrowSizeDescription_integer K assert self (Z.of_nat (n - 1))).
    + replace (0 <=? Z.of_nat (n - 1))%Z with true by (symmetry; apply Z.leb_le; lia).
      rewrite Nat2Z.id. unfold n.
      now rewrite (nth_error_last _ EmptyString Hne).
    + rewrite (arrowSizeIndex_above K self h Hh Hlt).
      unfold JS.length, JS.sub, JS.neg, JS.add, same_value. fold n.
      rewrite Nat2Z.inj_sub by exact Hn.
      unfold Z.sub. rewrite inject_Z_plus. reflexivity.
Qed.

(** C9.  The list of strings not being empty and the smallest arrow height
    not being the threshold itself, for every arrow height that is at least
    the smallest arrow height the index is an integer from 0 to the length
    of the list less one: the assertion holds, the list is read within its
    bounds, and the function returns. *)
Theorem arrow_size_index_in_bounds
    (K : OhmsLawConstants) (self : WireBox) (a h : Q) :
  RELATIVE_SIZE_STRINGS K <> [] ->
  minArrowHeight self = Fin a ->
  height (bottomLeftArrow self) = Fin h ->
  ~ a == WIRE_HEIGHT K * 2 ->
  a <= h ->
  exists i : nat,
    same_value (arrowSizeIndex K self) (Fin (inject_Z (Z.of_nat i))) /\
    (i < List.length (RELATIVE_SIZE_STRINGS K))%nat /\
    indexInBounds K (arrowSizeIndex K self) = true /\
    exists s : string,
      nth_error (RELATIVE_SIZE_STRINGS K) i = Some s /\
      forall assert : bool,
        getArrowSizeDescription K assert self = Normal (JS.toLowerCase s).
Proof.
  intros Hne Ha Hh Hcfg Hah.
  set (n := List.length (RELATIVE_SIZE_STRINGS K)).
  assert (Hn : (1 <= n)%nat).
  { unfold n. destruct (RELATIVE_SIZE_STRINGS K); [contradiction|simpl; lia]. }
  pose proof (describedIndex_in_bounds n a (WIRE_HEIGHT K * 2) h Hn Hcfg Hah)
    as [Hlo Hhi].
  pose proof (arrowSizeIndex_described K self a h Ha Hh (or_introl Hcfg)) as Hi.
  fold n in Hi.
  set (z := describedIndex n a (WIRE_HEIGHT K * 2) h) in *.
  exists (Z.to_nat z).
  rewrite Z2Nat.id by exact Hlo.
  assert (Hlt : (Z.to_nat z < n)%nat) by lia.
  destruct (nth_error (RELATIVE_SIZE_STRINGS K) (Z.to_nat z)) as [s|] eqn:N.
  2:{ apply nth_error_None in N. fold n in N. lia. }
  repeat split; auto.
  - rewrite (indexInBounds_integer K _ z Hi). fold n.
    apply andb_true_iff. split; [apply Z.leb_le|apply Z.ltb_lt]; lia.
  - exists s. split; [reflexivity|]. intros assert.
    rewrite (getArrowSizeDescription_integer K assert self z Hi).
    replace (0 <=? z)%Z with true by (symmetry; apply Z.leb_le; lia).
    now rewrite N.
Qed.
(** * Properties of the resistor's dots *)

(** An integer is below a rational exactly when it is below its ceiling. *)
Lemma Zlt_Qceiling (z : Z) (y : Q) : inject_Z z < y <-> (z < Qceiling y)%Z.
Proof.
  unfold Qceiling. split; intros H.
  - assert (F : inject_Z (Qfloor (- y)) < inject_Z (- z)).
    { eapply Qle_lt_trans; [apply Qfloor_le|]. rewrite inject_Z_opp. lra. }
    rewrite <- Zlt_Qlt in F. lia.
  - pose proof (Qlt_floor (- y)) as F.
    assert (G : inject_Z (Qfloor (- y) + 1) <= inject_Z (- z)).
    { rewrite <- Zle_Qle. lia. }
    rewrite inject_Z_opp in G. lra.
Qed.

Lemma index_below (i : nat) (y : Q) :
  JS.Qltb (inject_Z (Z.of_nat i)) y = (i <? Z.to_nat (Qceiling y))%nat.
Proof.
  destruct (Nat.ltb_spec i (Z.to_nat (Qceiling y))) as [L|L].
  - apply Qltb_true, Zlt_Qceiling. lia.
  - apply Qltb_false. apply Qnot_lt_le. intros H.
    apply Zlt_Qceiling in H. lia.
Qed.

Lemma indicesBelow_from (y : Q) (n : nat) :
  forall k : nat,
    List.length
      (filter (fun i => JS.Qltb (inject_Z (Z.of_nat i)) y) (seq k n))
    = (Nat.min (k + n) (Z.to_nat (Qceiling y))
       - Nat.min k (Z.to_nat (Qceiling y)))%nat.
Proof.
  induction n as [|n IH]; intros k; cbn [seq filter].
  - rewrite Nat.add_0_r. cbn [List.length]. lia.
  - rewrite index_below.
    destruct (Nat.ltb_spec k (Z.to_nat (Qceiling y))) as [L|L];
      cbn [List.length]; rewrite IH; lia.
Qed.

(** The indices below [x] are those below its ceiling: their number is the
    ceiling, once it is brought between 0 and [n]. *)
Lemma indicesBelow_ceiling (n : nat) (x : Q) :
  indicesBelow n x = Nat.min n (Z.to_nat (Qceiling x)).
Proof. unfold indicesBelow. rewrite indicesBelow_from. simpl. lia. Qed.

Lemma showDot_visible (y : Q) (dot : Dot) (index : nat) :
  visible (showDot (Fin y) dot index) = (index <? Z.to_nat (Qceiling y))%nat.
Proof. unfold showDot, setVisible. cbn [visible JS.lt]. apply index_below. Qed.

(** Of the dots visited from [index] on, those with an index below [y] are
    the visible ones. *)
Lemma forEachFrom_visible (y : Q) (children : list Dot) :
  forall index : nat,
    List.length (filter visible (forEachFrom index (showDot (Fin y)) children))
    = (indicesBelow (index + List.length children) y
       - indicesBelow index y)%nat.
Proof.
  intros index. rewrite !indicesBelow_ceiling. revert index.
  induction children as [|dot rest IH]; intros index;
    cbn [forEachFrom filter List.length].
  - rewrite Nat.add_0_r. lia.
  - rewrite showDot_visible.
    destruct (Nat.ltb_spec index (Z.to_nat (Qceiling y))) as [L|L];
      cbn [List.length]; rewrite IH; lia.
Qed.

Lemma indicesBelow_mono (n : nat) (x y : Q) :
  x <= y -> (indicesBelow n x <= indicesBelow n y)%nat.
Proof.
  intros H. rewrite !indicesBelow_ceiling.
  pose proof (Qceiling_resp_le x y H). lia.
Qed.

Lemma indicesBelow_negative (n : nat) (x : Q) : x <= 0 -> indicesBelow n x = 0%nat.
Proof.
  intros H. rewrite indicesBelow_ceiling.
  pose proof (Qceiling_resp_le x 0 H) as C. change (Qceiling 0) with 0%Z in C.
  lia.
Qed.

Lemma indicesBelow_comp (n : nat) (x y : Q) :
  x == y -> indicesBelow n x = indicesBelow n y.
Proof.
  intros H. rewrite !indicesBelow_ceiling. now rewrite (Qceiling_comp x y H).
Qed.

Lemma mul_Fin_inv (a b : number) (M : Q) :
  JS.mul a b = Fin M -> exists c r, a = Fin c /\ b = Fin r.
Proof.
  destruct a as [c| | |], b as [r| | |]; simpl; intros H;
    try discriminate; try (now exists c, r).
  all: unfold JS.inf_like in H;
    repeat match type of H with
           | context [if ?t then _ else _] => destruct t; simpl in H
           end; discriminate.
Qed.

Lemma loopValues_Fin (c : Q) : exists l, loopValues (Fin c) = Some l.
Proof. simpl. eauto. Qed.

Lemma createDots_finite K Math_sqrt (M : Q) :
  MAX_DOTS K Math_sqrt = Fin M -> exists dots, createDots K Math_sqrt = Some dots.
Proof.
  intros H. apply mul_Fin_inv in H as (c & r & Hc & Hr).
  unfold createDots. rewrite Hc, Hr.
  destruct (loopValues_Fin c) as [cs ->], (loopValues_Fin r) as [rs ->].
  destruct cs; eauto.
Qed.

(** The position of [x] between [lo] and [hi], as a fraction. *)
Lemma fraction_bounds (lo hi x : Q) :
  lo < hi -> lo <= x -> x <= hi ->
  0 <= (x - lo) / (hi - lo) /\ (x - lo) / (hi - lo) <= 1.
Proof.
  intros H1 H2 H3. split.
  - apply Qle_shift_div_l; lra.
  - apply Qle_shift_div_r; lra.
Qed.

Lemma interpolate_fraction (lo hi lo' hi' x : Q) :
  lo < hi ->
  interpolate lo hi lo' hi' x == lo' + (hi' - lo') * ((x - lo) / (hi - lo)).
Proof. intros H. unfold interpolate. field. lra. Qed.

(** Within the range the clamp of [RESISTANCE_TO_NUM_DOTS] changes nothing:
    the function is the linear map. *)
Lemma RESISTANCE_TO_NUM_DOTS_in_range K Math_sqrt (M x : Q) :
  MAX_DOTS K Math_sqrt = Fin M ->
  Range.min (RESISTANCE_RANGE K) < Range.max (RESISTANCE_RANGE K) ->
  Range.contains (RESISTANCE_RANGE K) x ->
  exists y,
    RESISTANCE_TO_NUM_DOTS K Math_sqrt (Fin x) = Fin y /\
    y == interpolate (Range.min (RESISTANCE_RANGE K))
                     (Range.max (RESISTANCE_RANGE K))
                     (M * 0.05) M x.
Proof.
  intros HM Hlt [Hlo Hhi].
  set (lo := Range.min (RESISTANCE_RANGE K)) in *.
  set (hi := Range.max (RESISTANCE_RANGE K)) in *.
  unfold RESISTANCE_TO_NUM_DOTS, LinearFunction. fold lo hi. rewrite HM.
  change (JS.mul (Fin M) (Fin 0.05)) with (Fin (M * 0.05)).
  rewrite linear_Fin by lra.
  set (y := (M + - (M * 0.05)) / (hi + - lo) * (x + - lo) + M * 0.05).
  assert (Ey : y == interpolate lo hi (M * 0.05) M x).
  { unfold y, interpolate. field. lra. }
  pose proof (fraction_bounds lo hi x Hlt Hlo Hhi) as [F0 F1].
  pose proof (interpolate_fraction lo hi (M * 0.05) M x Hlt) as Ef.
  set (t := (x - lo) / (hi - lo)) in *.
  rewrite Ef in Ey.
  exists y. split; [|now rewrite Ey, Ef].
  unfold Math.min, Math.max, Util.clamp, JS.gt, JS.lt.
  destruct (JS.Qltb M (M * 0.05)) eqn:A, (JS.Qltb (M * 0.05) M) eqn:B;
    try apply Qltb_true in A; try apply Qltb_false in A;
    try apply Qltb_true in B; try apply Qltb_false in B.
  - lra.
  - destruct (JS.Qltb y M) eqn:C; [apply Qltb_true in C; nra|].
    destruct (JS.Qltb (M * 0.05) y) eqn:D; [apply Qltb_true in D; nra|].
    reflexivity.
  - destruct (JS.Qltb y (M * 0.05)) eqn:C; [apply Qltb_true in C; nra|].
    destruct (JS.Qltb M y) eqn:D; [apply Qltb_true in D; nra|].
    reflexivity.
  - destruct (JS.Qltb y (M * 0.05)) eqn:C; [apply Qltb_true in C; nra|].
    destruct (JS.Qltb (M * 0.05) y) eqn:D; [apply Qltb_true in D; nra|].
    reflexivity.
Qed.

Lemma numVisibleDots_count K Math_sqrt shuffle dots (x y : Q) :
  (forall l, Permutation l (shuffle l)) ->
  createDots K Math_sqrt = Some dots ->
  RESISTANCE_TO_NUM_DOTS K Math_sqrt (Fin x) = Fin y ->
  numVisibleDots K Math_sqrt shuffle (Fin x)
  = Some (indicesBelow (List.length dots) y).
Proof.
  intros Hperm Hdots Hy.
  unfold numVisibleDots, dotsNodeChildren, showDots. rewrite Hdots, Hy.
  rewrite forEachFrom_visible.
  rewrite <- (Permutation_length (Hperm dots)).
  rewrite !indicesBelow_ceiling. f_equal. simpl. lia.
Qed.

(** The linear map does not decrease when the images of the bounds are in
    order. *)
Lemma interpolate_mono (lo hi lo' hi' x y : Q) :
  lo < hi -> lo' <= hi' -> x <= y ->
  interpolate lo hi lo' hi' x <= interpolate lo hi lo' hi' y.
Proof.
  intros H1 H2 H3. rewrite !interpolate_fraction by exact H1.
  assert ((x - lo) / (hi - lo) <= (y - lo) / (hi - lo)).
  { apply Qle_shift_div_l; [lra|].
    assert (E : (x - lo) / (hi - lo) * (hi - lo) == x - lo) by (field; lra).
    rewrite E. lra. }
  nra.
Qed.

(** ** The claim about the dots *)

(** C10, as amended.  [MAX_DOTS] being finite, the shuffle a permutation
    and the resistance range not a single point: for every resistance within
    the range the number of visible dots is the number of created dots whose
    index is below the value of the linear map of the resistance from the
    range onto the interval from 5% of [MAX_DOTS] to [MAX_DOTS], that is the
    value of the map rounded up to a whole number and at most the number of
    dots created; and this number does not decrease when the resistance
    increases. *)
Theorem visible_dots_follow_resistance
    (K : OhmsLawConstants) (Math_sqrt : number -> number)
    (shuffle : list Dot -> list Dot) (M : Q) :
  (forall l, Permutation l (shuffle l)) ->
  MAX_DOTS K Math_sqrt = Fin M ->
  Range.min (RESISTANCE_RANGE K) < Range.max (RESISTANCE_RANGE K) ->
  exists dots : list Dot,
    createDots K Math_sqrt = Some dots /\
    (forall x : Q,
        Range.contains (RESISTANCE_RANGE K) x ->
        let y := interpolate (Range.min (RESISTANCE_RANGE K))
                             (Range.max (RESISTANCE_RANGE K))
                             (M * 0.05) M x in
        numVisibleDots K Math_sqrt shuffle (Fin x)
        = Some (indicesBelow (List.length dots) y) /\
        indicesBelow (List.length dots) y
        = Nat.min (List.length dots) (Z.to_nat (Qceiling y))) /\
    (forall x y : Q,
        Range.contains (RESISTANCE_RANGE K) x ->
        Range.contains (RESISTANCE_RANGE K) y ->
        x <= y ->
        exists nx ny : nat,
          numVisibleDots K Math_sqrt shuffle (Fin x) = Some nx /\
          numVisibleDots K Math_sqrt shuffle (Fin y) = Some ny /\
          (nx <= ny)%nat).
Proof.
  intros Hperm HM Hlt.
  destruct (createDots_finite K Math_sqrt M HM) as [dots Hdots].
  exists dots. split; [exact Hdots|].
  assert (Hcount : forall x : Q,
             Range.contains (RESISTANCE_RANGE K) x ->
             numVisibleDots K Math_sqrt shuffle (Fin x)
             = Some (indicesBelow
                       (List.length dots)
                       (interpolate (Range.min (RESISTANCE_RANGE K))
                                    (Range.max (RESISTANCE_RANGE K))
                                    (M * 0.05) M x))).
  { intros x Hx.
    destruct (RESISTANCE_TO_NUM_DOTS_in_range K Math_sqrt M x HM Hlt Hx)
      as (y & Hy & Ey).
    rewrite (numVisibleDots_count K Math_sqrt shuffle dots x y Hperm Hdots Hy).
    f_equal. now apply indicesBelow_comp. }
  split; [intros x Hx; split;
          [apply Hcount, Hx | apply indicesBelow_ceiling]|].
  intros x y Hx Hy Hxy.
  do 2 eexists. split; [apply Hcount, Hx|]. split; [apply Hcount, Hy|].
  destruct (Qlt_le_dec M 0) as [Hneg | Hpos].
  - rewrite indicesBelow_negative; [lia|].
    rewrite interpolate_fraction by exact Hlt.
    destruct Hx as [Hx0 Hx1].
    pose proof (fraction_bounds _ _ x Hlt Hx0 Hx1) as [F0 F1]. nra.
  - apply indicesBelow_mono, interpolate_mono; auto. lra.
Qed.

(** * The claims on the example constants *)

Lemma exampleState_reachable : reachable exampleConstants exampleState.
Proof. apply reachable_run, reachable_new. Qed.

(** C1 at 9.9 V and 10 ohms: 990 mA. *)
Lemma current_is_derived_from_inputs_example :
  same_value (getCurrent exampleState) (Fin 990) /\
  same_value
    (getCurrent (modelOf (run [SetVoltage (Fin 9.9); SetResistance (Fin 10)]
                              (newOhmsLawModel exampleConstants))))
    (Fin 990).
Proof.
  assert (in_voltage_range : Range.contains (VOLTAGE_RANGE exampleConstants) 9.9)
    by (unfold Range.contains; simpl; lra).
  assert (in_resistance_range :
            Range.contains (RESISTANCE_RANGE exampleConstants) 10)
    by (unfold Range.contains; simpl; lra).
  assert (positive : 0 < 10) by lra.
  split.
  - apply (same_value_trans _ (Fin (1000 * 9.9 / 10))); [|reflexivity].
    exact (proj1 (current_is_derived_from_inputs
                    exampleConstants exampleState 9.9 10
                    exampleState_reachable
                    in_voltage_range in_resistance_range positive)
                 eq_refl eq_refl).
  - apply (same_value_trans _ (Fin (1000 * 9.9 / 10))); [|reflexivity].
    exact (proj2 (current_is_derived_from_inputs
                    exampleConstants (newOhmsLawModel exampleConstants) 9.9 10
                    (reachable_new exampleConstants)
                    in_voltage_range in_resistance_range positive)).
Defined.

(** C2 on the constructed model: the values are the defaults, and the call
    throws. *)
Lemma reset_restores_defaults_then_throws_example :
  same_value (getVoltage (modelOf (reset (newOhmsLawModel exampleConstants))))
             (Fin 4.5) /\
  same_value (getResistance (modelOf (reset (newOhmsLawModel exampleConstants))))
             (Fin 500) /\
  same_value (getCurrent (modelOf (reset (newOhmsLawModel exampleConstants))))
             (derivation (Fin 4.5) (Fin 500)) /\
  completionOf (reset (newOhmsLawModel exampleConstants)) = Throw TypeError.
Proof.
  apply (reset_restores_defaults_then_throws exampleConstants).
  apply reachable_new.
Defined.

(** C3 fails as stated: -5 V is outside the range from 0.1 V to 9.9 V, and
    after the voltage is set to -5 V the stored voltage is -5 V, not 0.1 V. *)
Lemma setVoltage_does_not_clamp :
  ~ Range.contains (VOLTAGE_RANGE exampleConstants) (-5) /\
  same_value
    (getVoltage (modelOf (step (SetVoltage (Fin (-5)))
                               (newOhmsLawModel exampleConstants))))
    (Fin (-5)) /\
  ~ same_value
      (getVoltage (modelOf (step (SetVoltage (Fin (-5)))
                                 (newOhmsLawModel exampleConstants))))
      (Fin 0.1).
Proof.
  split; [|split].
  - unfold Range.contains. simpl. lra.
  - reflexivity.
  - vm_compute. discriminate.
Qed.

(** C4 where the current changes: the observer is called once. *)
Lemma current_observer_called_once_per_change_example :
  callsTo 7 current (snd (setVoltage (Fin 4.5) (lazyLink current 7 exampleState)))
  = [ {| observer := 7; property := current;
         newValue := derivation (Fin 4.5) (Fin 10);
         oldValue := Some (getCurrent exampleState) |} ].
Proof.
  apply (current_observer_called_once_per_change
           exampleConstants exampleState 7 (Fin 4.5)).
  - apply exampleState_reachable.
  - simpl. tauto.
Defined.

(** C4 fails as stated: when the voltage is set to the value it has, the
    observer of the current is not called at all. *)
Lemma current_observer_not_called_without_change :
  callsTo 7 current
    (logOf (step (SetVoltage (Fin 4.5))
                 (lazyLink current 7 (newOhmsLawModel exampleConstants))))
  = [] /\
  List.length
    (callsTo 7 current
       (logOf (step (SetVoltage (Fin 4.5))
                    (lazyLink current 7 (newOhmsLawModel exampleConstants)))))
  <> 1%nat.
Proof. split; [reflexivity | vm_compute; discriminate]. Qed.

(** C6 at 9.9 V and 10 ohms, the corner of the ranges with the greatest
    current. *)
Lemma current_is_finite_example :
  JS.strict_eq (getResistance exampleState) (Fin 0) = false /\
  JS.isFinite (derivation (getVoltage exampleState)
                          (getResistance exampleState)) = true /\
  JS.isFinite (getCurrent exampleState) = true /\
  exists c : Q,
    getCurrent exampleState = Fin c /\
    Qabs c <= 1000 * (Qabs 0.1 + Qabs 9.9) / 10.
Proof.
  apply (current_is_finite exampleConstants exampleState 9.9 10).
  - apply exampleState_reachable.
  - reflexivity.
  - unfold Range.contains; simpl; lra.
  - reflexivity.
  - unfold Range.contains; simpl; lra.
  - simpl; lra.
Defined.

(** C6 fails as stated: the voltage set to [Infinity], which the setter
    stores, the model is in a state with the resistance 500 ohms, within a
    range whose lower bound is positive, and the derived current is
    [Infinity]. *)
Lemma current_is_infinite_at_an_infinite_voltage :
  reachable exampleConstants exampleInfiniteVoltageState /\
  getResistance exampleInfiniteVoltageState = Fin 500 /\
  Range.contains (RESISTANCE_RANGE exampleConstants) 500 /\
  0 < Range.min (RESISTANCE_RANGE exampleConstants) /\
  getCurrent exampleInfiniteVoltageState = PosInf /\
  JS.isFinite (getCurrent exampleInfiniteVoltageState) = false.
Proof.
  split; [apply (reachable_step exampleConstants (SetVoltage PosInf)),
          reachable_new|].
  split; [reflexivity|].
  split; [unfold Range.contains; simpl; lra|].
  split; [simpl; lra|].
  split; reflexivity.
Qed.

(** C7 from the example state. *)
Lemma reset_twice_is_reset_once_example :
  modelOf (run [Reset; Reset] exampleState) = modelOf (reset exampleState) /\
  modelOf (reset (modelOf (reset exampleState))) = modelOf (reset exampleState).
Proof.
  apply (reset_twice_is_reset_once exampleConstants).
  apply exampleState_reachable.
Defined.

(** C8 at a height of 100 units, between the smallest height and the
    threshold, and at 400 units, above the threshold. *)
Lemma arrow_size_description_is_lower_cased_entry_example :
  getArrowSizeDescription exampleConstants true exampleWireBox
  = Normal "very small"%string /\
  getArrowSizeDescription exampleConstants true exampleTallWireBox
  = Normal "huge"%string.
Proof.
  split.
  - apply (proj1 (arrow_size_description_is_lower_cased_entry
                    exampleConstants true exampleWireBox 100 eq_refl)
                 20 eq_refl).
    simpl. lra.
  - apply (proj2 (arrow_size_description_is_lower_cased_entry
                    exampleConstants true exampleTallWireBox 400 eq_refl)).
    + simpl. lra.
    + discriminate.
Defined.

(** C8 fails as stated: above the threshold the last string of the list is
    "Huge", and the description is "huge". *)
Lemma description_is_not_the_list_entry :
  JS.lt (maxArrowHeightThreshold exampleConstants)
        (height (bottomLeftArrow exampleTallWireBox)) = true /\
  last (RELATIVE_SIZE_STRINGS exampleConstants) EmptyString = "Huge"%string /\
  getArrowSizeDescription exampleConstants true exampleTallWireBox
  <> Normal (last (RELATIVE_SIZE_STRINGS exampleConstants) EmptyString).
Proof.
  split; [reflexivity|]. split; [reflexivity|].
  vm_compute. discriminate.
Qed.

(** C9 at a height of 100 units. *)
Lemma arrow_size_index_in_bounds_example :
  exists i : nat,
    same_value (arrowSizeIndex exampleConstants exampleWireBox)
               (Fin (inject_Z (Z.of_nat i))) /\
    (i < List.length (RELATIVE_SIZE_STRINGS exampleConstants))%nat /\
    indexInBounds exampleConstants
                  (arrowSizeIndex exampleConstants exampleWireBox) = true /\
    exists s : string,
      nth_error (RELATIVE_SIZE_STRINGS exampleConstants) i = Some s /\
      forall assert : bool,
        getArrowSizeDescription exampleConstants assert exampleWireBox
        = Normal (JS.toLowerCase s).
Proof.
  apply (arrow_size_index_in_bounds exampleConstants exampleWireBox 20 100).
  - discriminate.
  - reflexivity.
  - reflexivity.
  - simpl. lra.
  - lra.
Defined.

Lemma exampleShuffle_permutation (l : list Dot) :
  Permutation l (exampleShuffle l).
Proof. apply Permutation_rev. Qed.

(** C10 on the example constants, where [MAX_DOTS] is 390. *)
Lemma visible_dots_follow_resistance_example :
  exists dots : list Dot,
    createDots exampleConstants exampleSqrt = Some dots /\
    (forall x : Q,
        Range.contains (RESISTANCE_RANGE exampleConstants) x ->
        let y := interpolate 10 1000 (390 * 0.05) 390 x in
        numVisibleDots exampleConstants exampleSqrt exampleShuffle (Fin x)
        = Some (indicesBelow (List.length dots) y) /\
        indicesBelow (List.length dots) y
        = Nat.min (List.length dots) (Z.to_nat (Qceiling y))) /\
    (forall x y : Q,
        Range.contains (RESISTANCE_RANGE exampleConstants) x ->
        Range.contains (RESISTANCE_RANGE exampleConstants) y ->
        x <= y ->
        exists nx ny : nat,
          numVisibleDots exampleConstants exampleSqrt exampleShuffle (Fin x)
          = Some nx /\
          numVisibleDots exampleConstants exampleSqrt exampleShuffle (Fin y)
          = Some ny /\
          (nx <= ny)%nat).
Proof.
  apply (visible_dots_follow_resistance
           exampleConstants exampleSqrt exampleShuffle 390).
  - apply exampleShuffle_permutation.
  - vm_compute. reflexivity.
  - simpl. lra.
Defined.

(** C10 fails as stated: at 10 ohms, within the range, the linear map has
    the value 19.5 and 20 dots are visible. *)
Lemma visible_dots_are_not_the_map_value :
  Range.contains (RESISTANCE_RANGE exampleConstants) 10 /\
  same_value (RESISTANCE_TO_NUM_DOTS exampleConstants exampleSqrt (Fin 10))
             (Fin 19.5) /\
  numVisibleDots exampleConstants exampleSqrt exampleShuffle (Fin 10)
  = Some 20%nat /\
  ~ same_value (Fin (inject_Z (Z.of_nat 20)))
               (RESISTANCE_TO_NUM_DOTS exampleConstants exampleSqrt (Fin 10)).
Proof.
  split; [unfold Range.contains; simpl; lra|].
  split; [vm_compute; reflexivity|].
  split; [vm_compute; reflexivity|].
  vm_compute. discriminate.
Qed.

(** * Further properties of the reactive model *)

Lemma observersOf_observers (ids : list nat) :
  observersOf (map Observer ids) = ids.
Proof. induction ids as [|i ids IH]; simpl; congruence. Qed.

(** The log of one round over the listeners of a reachable state: first the
    observers of the current, when the derived value changes, then the
    observers of the property that was set. *)
Lemma notifyListeners_log n new old ids m :
  notifyListeners n new old (DependencyListener :: map Observer ids) m
  = (fst (setCurrent (derivation (getVoltage m) (getResistance m)) m),
     snd (setCurrent (derivation (getVoltage m) (getResistance m)) m)
     ++ map (notice n new (Some old)) ids).
Proof.
  unfold notifyListeners. simpl.
  destruct (setCurrent (derivation (getVoltage m) (getResistance m)) m)
    as [m' log].
  rewrite callListeners_observers. reflexivity.
Qed.

Lemma setVoltage_log K m (x : number) :
  reachable K m ->
  JS.strict_eq x (getVoltage m) = false ->
  snd (setVoltage x m)
  = (if JS.strict_eq (derivation x (getResistance m)) (getCurrent m)
     then []
     else map (notice current (derivation x (getResistance m))
                      (Some (getCurrent m)))
              (listeners (currentProperty m)))
    ++ map (notice voltage x (Some (getVoltage m)))
           (observersOf (listeners (voltageProperty m))).
Proof.
  intros Hreach Hx.
  destruct (inv_voltage_listeners K m (reachable_invariant K m Hreach))
    as [vs Hvs].
  unfold setVoltage. fold (getVoltage m). rewrite Hx, Hvs.
  rewrite notifyListeners_log. simpl snd.
  cbn [observersOf]. rewrite observersOf_observers.
  unfold setCurrent, getVoltage, getResistance. simpl.
  fold (getResistance m). fold (getCurrent m).
  destruct (JS.strict_eq (derivation x (getResistance m)) (getCurrent m));
    reflexivity.
Qed.

Lemma setResistance_log K m (x : number) :
  reachable K m ->
  JS.strict_eq x (getResistance m) = false ->
  snd (setResistance x m)
  = (if JS.strict_eq (derivation (getVoltage m) x) (getCurrent m)
     then []
     else map (notice current (derivation (getVoltage m) x)
                      (Some (getCurrent m)))
              (listeners (currentProperty m)))
    ++ map (notice resistance x (Some (getResistance m)))
           (observersOf (listeners (resistanceProperty m))).
Proof.
  intros Hreach Hx.
  destruct (inv_resistance_listeners K m (reachable_invariant K m Hreach))
    as [rs Hrs].
  unfold setResistance. fold (getResistance m). rewrite Hx, Hrs.
  rewrite notifyListeners_log. simpl snd.
  cbn [observersOf]. rewrite observersOf_observers.
  unfold setCurrent, getVoltage, getResistance. simpl.
  fold (getVoltage m). fold (getCurrent m).
  destruct (JS.strict_eq (derivation (getVoltage m) x) (getCurrent m));
    reflexivity.
Qed.

(** X1.  In every state that the model reaches, a call that changes the
    voltage first calls the observers of the current, in the order of their
    registration and only when the derived current changes, and then the
    observers of the voltage, in the order of their registration; a call
    that changes the resistance does the same with the observers of the
    resistance. *)
Theorem setters_notify_current_observers_first
    (K : OhmsLawConstants) (m : OhmsLawModel) (x : number) :
  reachable K m ->
  (JS.strict_eq x (getVoltage m) = false ->
   snd (setVoltage x m)
   = (if JS.strict_eq (derivation x (getResistance m)) (getCurrent m)
      then []
      else map (notice current (derivation x (getResistance m))
                       (Some (getCurrent m)))
               (listeners (currentProperty m)))
     ++ map (notice voltage x (Some (getVoltage m)))
            (observersOf (listeners (voltageProperty m)))) /\
  (JS.strict_eq x (getResistance m) = false ->
   snd (setResistance x m)
   = (if JS.strict_eq (derivation (getVoltage m) x) (getCurrent m)
      then []
      else map (notice current (derivation (getVoltage m) x)
                       (Some (getCurrent m)))
               (listeners (currentProperty m)))
     ++ map (notice resistance x (Some (getResistance m)))
            (observersOf (listeners (resistanceProperty m)))).
Proof.
  intros Hreach. split; intros Hx.
  - now apply (setVoltage_log K).
  - now apply (setResistance_log K).
Qed.

(** X2.  Setting an input to a finite value a second time changes nothing
    and calls no listener. *)
Theorem setting_twice_is_silent (m : OhmsLawModel) (x : Q) :
  setVoltage (Fin x) (fst (setVoltage (Fin x) m))
  = (fst (setVoltage (Fin x) m), []) /\
  setResistance (Fin x) (fst (setResistance (Fin x) m))
  = (fst (setResistance (Fin x) m), []).
Proof.
  split.
  - pose proof (setVoltage_spec (Fin x) m) as (H & _).
    set (m' := fst (setVoltage (Fin x) m)) in *.
    unfold setVoltage. fold (getVoltage m').
    now rewrite (same_value_strict_eq _ _ H).
  - pose proof (setResistance_spec (Fin x) m) as (H & _).
    set (m' := fst (setResistance (Fin x) m)) in *.
    unfold setResistance. fold (getResistance m').
    now rewrite (same_value_strict_eq _ _ H).
Qed.

(** The derivation gives the same value for two equal finite resistances,
    whatever the voltage. *)
Lemma derivation_resistance_compat (v : number) (r r' : Q) :
  r == r' ->
  same_value (derivation v (Fin r)) (derivation v (Fin r')).
Proof.
  intros Hr. destruct v as [q| | |].
  - apply derivation_Fin_compat; [reflexivity | exact Hr].
  - unfold derivation. simpl.
    rewrite (Qltb_compat r r' 0 0 Hr (Qeq_refl 0)).
    destruct (JS.Qltb r' 0); exact I.
  - unfold derivation. simpl.
    rewrite (Qltb_compat r r' 0 0 Hr (Qeq_refl 0)).
    destruct (JS.Qltb r' 0); exact I.
  - exact I.
Qed.

(** The value of the derived property after a setter, on a reachable state. *)
Lemma current_after_setResistance K m (r : Q) :
  reachable K m ->
  same_value (getCurrent (fst (setResistance (Fin r) m)))
             (derivation (getVoltage m) (Fin r)).
Proof.
  intros Hreach.
  pose proof (reachable_step K (SetResistance (Fin r)) m Hreach) as Hreach'.
  unfold modelOf in Hreach'. simpl in Hreach'.
  pose proof (inv_consistent K _ (reachable_invariant K _ Hreach')) as Hc.
  pose proof (setResistance_spec (Fin r) m) as (H1 & _ & _ & _ & H2 & _).
  set (m' := fst (setResistance (Fin r) m)) in *.
  unfold consistent in Hc.
  assert (Ev : getVoltage m' = getVoltage m).
  { unfold getVoltage. now rewrite H2. }
  apply same_value_Fin in H1 as (r' & Er & Hr).
  rewrite Ev, Er in Hc.
  eapply same_value_trans; [exact Hc|].
  now apply derivation_resistance_compat.
Qed.

(** Over the resistance zero the derivation is never finite. *)
Lemma derivation_over_zero (v : number) :
  JS.isFinite (derivation v (Fin 0)) = false.
Proof.
  destruct v as [q| | |]; unfold derivation; simpl; try reflexivity.
  unfold JS.inf_like.
  destruct (Qeq_bool (1000 * q) 0); [reflexivity|].
  destruct (JS.Qltb 0 (1000 * q)); reflexivity.
Qed.

Lemma same_value_isFinite (a b : number) :
  same_value a b -> JS.isFinite a = JS.isFinite b.
Proof. destruct a, b; simpl; tauto || reflexivity. Qed.

(** X3.  In every state that the model reaches, setting the resistance to
    zero raises no error and leaves a current that is not a finite number:
    [NaN] when the voltage is zero, [Infinity] or [-Infinity] when the
    voltage is a finite number other than zero. *)
Theorem zero_resistance_gives_a_non_finite_current
    (K : OhmsLawConstants) (m : OhmsLawModel) :
  reachable K m ->
  completionOf (step (SetResistance (Fin 0)) m) = Normal tt /\
  JS.isFinite (getCurrent (modelOf (step (SetResistance (Fin 0)) m))) = false /\
  forall v : Q,
    getVoltage m = Fin v ->
    (v == 0 ->
     getCurrent (modelOf (step (SetResistance (Fin 0)) m)) = NaN) /\
    (~ v == 0 ->
     getCurrent (modelOf (step (SetResistance (Fin 0)) m)) = PosInf \/
     getCurrent (modelOf (step (SetResistance (Fin 0)) m)) = NegInf).
Proof.
  intros Hreach. unfold completionOf, modelOf. simpl.
  split; [reflexivity|].
  pose proof (current_after_setResistance K m 0 Hreach) as Hc.
  split.
  - rewrite (same_value_isFinite _ _ Hc). apply derivation_over_zero.
  - intros v Hv. rewrite Hv in Hc. unfold derivation in Hc. simpl in Hc.
    unfold JS.inf_like in Hc.
    split; intros Hz.
    + assert (E : Qeq_bool (1000 * v) 0 = true)
        by (apply Qeq_eq_bool; rewrite Hz; reflexivity).
      rewrite E in Hc.
      destruct (getCurrent (fst (setResistance (Fin 0) m))); simpl in Hc;
        try contradiction; reflexivity.
    + assert (E : Qeq_bool (1000 * v) 0 = false)
        by (apply Qeq_bool_false; intros H; apply Hz; lra).
      rewrite E in Hc.
      destruct (JS.Qltb 0 (1000 * v));
        destruct (getCurrent (fst (setResistance (Fin 0) m))); simpl in Hc;
        try contradiction; auto.
Qed.

Lemma current_after_setting K m (v r : Q) :
  reachable K m ->
  ~ r == 0 ->
  same_value
    (getCurrent (fst (setResistance (Fin r) (fst (setVoltage (Fin v) m)))))
    (Fin (1000 * v / r)).
Proof.
  intros Hreach Hr.
  pose proof (reachable_step K (SetVoltage (Fin v)) m Hreach) as Hreach1.
  unfold modelOf in Hreach1. simpl in Hreach1.
  pose proof (setVoltage_spec (Fin v) m) as (Hv & _).
  set (m1 := fst (setVoltage (Fin v) m)) in *.
  pose proof (current_after_setResistance K m1 r Hreach1) as Hc.
  apply same_value_Fin in Hv as (v' & Ev & Hv). rewrite Ev in Hc.
  eapply same_value_trans; [exact Hc|].
  rewrite <- (derivation_Fin v r) by exact Hr.
  apply derivation_Fin_compat; [exact Hv | reflexivity].
Qed.

(** The current of Ohm's law between the corners of the two ranges. *)
Lemma current_between_corners (vmin vmax rmin rmax v r : Q) :
  0 <= vmin -> 0 < rmin ->
  vmin <= v -> v <= vmax -> rmin <= r -> r <= rmax ->
  1000 * vmin / rmax <= 1000 * v / r /\ 1000 * v / r <= 1000 * vmax / rmin.
Proof.
  intros H1 H2 H3 H4 H5 H6. split; apply Qdiv_le_cross; try lra; nra.
Qed.

(** X4.  The lower bound of the voltage range not being negative and the
    lower bound of the resistance range being positive: in every state that
    the model reaches with both inputs within their ranges, the current is a
    finite number between [1000 * Vmin / Rmax] and [1000 * Vmax / Rmin]. *)
Theorem current_stays_between_the_corners
    (K : OhmsLawConstants) (m : OhmsLawModel) (v r : Q) :
  reachable K m ->
  getVoltage m = Fin v ->
  getResistance m = Fin r ->
  Range.contains (VOLTAGE_RANGE K) v ->
  Range.contains (RESISTANCE_RANGE K) r ->
  0 <= Range.min (VOLTAGE_RANGE K) ->
  0 < Range.min (RESISTANCE_RANGE K) ->
  exists c : Q,
    getCurrent m = Fin c /\
    1000 * Range.min (VOLTAGE_RANGE K) / Range.max (RESISTANCE_RANGE K) <= c /\
    c <= 1000 * Range.max (VOLTAGE_RANGE K) / Range.min (RESISTANCE_RANGE K).
Proof.
  intros Hreach Hv Hr [Hv0 Hv1] [Hr0 Hr1] Hvmin Hrmin.
  pose proof (inv_consistent K m (reachable_invariant K m Hreach)) as Hc.
  unfold consistent in Hc. rewrite Hv, Hr in Hc.
  rewrite derivation_Fin in Hc by lra.
  apply same_value_Fin in Hc as (c & Ec & Hc).
  exists c. split; [exact Ec|]. rewrite Hc.
  now apply current_between_corners.
Qed.

(** X5.  The lower bound of the voltage range not being negative and the
    resistance range being positive and not empty: the state in which the
    [WireBox] constructor measures [minArrowHeight], reached from any state
    of the model, has the current [1000 * Vmin / Rmax], and no voltage and
    resistance within the ranges give a smaller current. *)
Theorem minArrowHeight_is_measured_at_the_smallest_current
    (K : OhmsLawConstants) (m : OhmsLawModel) :
  reachable K m ->
  0 <= Range.min (VOLTAGE_RANGE K) ->
  0 < Range.min (RESISTANCE_RANGE K) ->
  Range.min (RESISTANCE_RANGE K) <= Range.max (RESISTANCE_RANGE K) ->
  same_value
    (getCurrent (fst (measuringState K m)))
    (Fin (1000 * Range.min (VOLTAGE_RANGE K) / Range.max (RESISTANCE_RANGE K)))
  /\
  forall v r : Q,
    Range.contains (VOLTAGE_RANGE K) v ->
    Range.contains (RESISTANCE_RANGE K) r ->
    1000 * Range.min (VOLTAGE_RANGE K) / Range.max (RESISTANCE_RANGE K)
    <= 1000 * v / r.
Proof.
  intros Hreach Hvmin Hrmin Hrange. split.
  - pose proof (current_after_setting K m (Range.min (VOLTAGE_RANGE K))
                  (Range.max (RESISTANCE_RANGE K)) Hreach) as H.
    unfold measuringState.
    destruct (setVoltage (Fin (Range.min (VOLTAGE_RANGE K))) m) as [m1 log1].
    simpl in H.
    destruct (setResistance (Fin (Range.max (RESISTANCE_RANGE K))) m1)
      as [m2 log2].
    simpl in *. apply H. lra.
  - intros v r [Hv0 Hv1] [Hr0 Hr1].
    apply (current_between_corners _ (Range.max (VOLTAGE_RANGE K))
             (Range.min (RESISTANCE_RANGE K))); auto.
Qed.

(** X6.  In every state that the model reaches with a voltage that is not
    the default: when the current derived from the default voltage and the
    resistance of that state differs from the current of the state, [reset]
    calls every observer of the current with that value, derived from the
    voltage after the reset and the resistance before it. *)
Theorem reset_shows_the_current_between_its_two_steps
    (K : OhmsLawConstants) (m : OhmsLawModel) (id : nat) :
  reachable K m ->
  In id (listeners (currentProperty m)) ->
  JS.strict_eq (Range.getDefaultValue (VOLTAGE_RANGE K)) (getVoltage m)
  = false ->
  JS.strict_eq
    (derivation (Range.getDefaultValue (VOLTAGE_RANGE K)) (getResistance m))
    (getCurrent m) = false ->
  In {| observer := id; property := current;
        newValue := derivation (Range.getDefaultValue (VOLTAGE_RANGE K))
                               (getResistance m);
        oldValue := Some (getCurrent m) |}
     (logOf (reset m)).
Proof.
  intros Hreach Hin Hv Hd.
  pose proof (reachable_invariant K m Hreach) as I.
  rewrite (reset_model m (inv_sound K m I)). unfold logOf. simpl.
  rewrite (inv_voltage_initial K m I).
  unfold Range.getDefaultValue in *.
  rewrite (setVoltage_log K m _ Hreach Hv), Hd.
  apply in_or_app. left. apply in_or_app. left.
  apply (in_map (notice current _ _) _ _ Hin).
Qed.

(** * Further properties of the resistor's dots *)

Lemma clampBetween_comp (lo hi v w : Q) :
  v == w -> clampBetween lo hi v == clampBetween lo hi w.
Proof.
  intros H. unfold clampBetween.
  rewrite (Qltb_compat v w lo lo H (Qeq_refl lo)).
  rewrite (Qltb_compat hi hi v w (Qeq_refl hi) H).
  destruct (JS.Qltb w lo); [reflexivity|].
  destruct (JS.Qltb hi w); [reflexivity|exact H].
Qed.

Lemma clampBetween_bounds (lo hi v : Q) :
  lo <= hi -> lo <= clampBetween lo hi v /\ clampBetween lo hi v <= hi.
Proof.
  intros H. unfold clampBetween.
  destruct (JS.Qltb v lo) eqn:A; [lra|]. apply Qltb_false in A.
  destruct (JS.Qltb hi v) eqn:B; [lra|]. apply Qltb_false in B. lra.
Qed.

Lemma clampBetween_mono (lo hi v w : Q) :
  lo <= hi -> v <= w -> clampBetween lo hi v <= clampBetween lo hi w.
Proof.
  intros H Hvw. unfold clampBetween.
  destruct (JS.Qltb v lo) eqn:A, (JS.Qltb w lo) eqn:A';
    try apply Qltb_true in A; try apply Qltb_false in A;
    try apply Qltb_true in A'; try apply Qltb_false in A';
    destruct (JS.Qltb hi v) eqn:B, (JS.Qltb hi w) eqn:B';
    try apply Qltb_true in B; try apply Qltb_false in B;
    try apply Qltb_true in B'; try apply Qltb_false in B'; lra.
Qed.

(** A clamped [LinearFunction] whose images are in order, at a finite
    argument: the linear map, brought between the two images. *)
Lemma LinearFunction_clamped (a1 a2 b1 b2 x : Q) :
  a1 < a2 -> b1 <= b2 ->
  exists y : Q,
    LinearFunction (Fin a1) (Fin a2) (Fin b1) (Fin b2) true (Fin x) = Fin y /\
    y == clampBetween b1 b2 (interpolate a1 a2 b1 b2 x).
Proof.
  intros Ha Hb. unfold LinearFunction.
  rewrite linear_Fin by lra.
  set (l := (b2 + - b1) / (a2 + - a1) * (x + - a1) + b1).
  assert (El : l == interpolate a1 a2 b1 b2 x).
  { unfold l, interpolate. field. lra. }
  assert (Emin : Math.min (Fin b1) (Fin b2) = Fin b1).
  { unfold Math.min, JS.lt.
    destruct (JS.Qltb b2 b1) eqn:A; [apply Qltb_true in A; lra|reflexivity]. }
  assert (Emax : Math.max (Fin b1) (Fin b2) = Fin b2 \/
                 (Math.max (Fin b1) (Fin b2) = Fin b1 /\ b1 == b2)).
  { unfold Math.max, JS.lt.
    destruct (JS.Qltb b1 b2) eqn:A; [now left|].
    apply Qltb_false in A. right. split; [reflexivity|lra]. }
  rewrite Emin. unfold Util.clamp, JS.gt.
  assert (Ec : clampBetween b1 b2 l
               == clampBetween b1 b2 (interpolate a1 a2 b1 b2 x))
    by now apply clampBetween_comp.
  unfold clampBetween in Ec at 1.
  destruct Emax as [-> | [-> Eb]]; unfold JS.lt.
  - destruct (JS.Qltb l b1); [eauto|]. destruct (JS.Qltb b2 l); eauto.
  - rewrite (Qltb_compat b2 b1 l l (Qeq_sym _ _ Eb) (Qeq_refl l)) in Ec.
    destruct (JS.Qltb l b1); [eauto|].
    destruct (JS.Qltb b1 l); [|eauto].
    exists b1. split; [reflexivity|]. rewrite <- Ec. exact Eb.
Qed.

Lemma flat_map_length_const {A B : Type} (f : A -> list B) (n : nat)
    (l : list A) :
  (forall a, List.length (f a) = n) ->
  List.length (flat_map f l) = (List.length l * n)%nat.
Proof.
  intros H. induction l as [|a l IH]; simpl; [reflexivity|].
  rewrite length_app, H, IH. reflexivity.
Qed.

(** The number of dots that the two loops create. *)
Lemma createDots_length K Math_sqrt (c r : Q) :
  DOT_GRID_COLUMNS K Math_sqrt = Fin c ->
  DOT_GRID_ROWS K Math_sqrt = Fin r ->
  exists dots : list Dot,
    createDots K Math_sqrt = Some dots /\
    List.length dots
    = (Z.to_nat (Qceiling c - 1) * Z.to_nat (Qceiling r - 1))%nat.
Proof.
  intros Hc Hr. unfold createDots. rewrite Hc, Hr. simpl loopValues.
  set (cols := map Z.of_nat (seq 1 (Z.to_nat (Qceiling c - 1)))).
  set (rows := map Z.of_nat (seq 1 (Z.to_nat (Qceiling r - 1)))).
  assert (Lc : List.length cols = Z.to_nat (Qceiling c - 1))
    by (unfold cols; now rewrite length_map, length_seq).
  assert (Lr : List.length rows = Z.to_nat (Qceiling r - 1))
    by (unfold rows; now rewrite length_map, length_seq).
  clearbody cols rows.
  destruct cols as [|i rest].
  - exists []. split; [reflexivity|]. simpl in Lc. rewrite <- Lc. reflexivity.
  - eexists. split; [reflexivity|].
    rewrite (flat_map_length_const _ (List.length rows)).
    + now rewrite Lc, Lr.
    + intros a. now rewrite length_map.
Qed.

Lemma Qceiling_integer (q : Q) (z : Z) : q == inject_Z z -> Qceiling q = z.
Proof.
  intros H. rewrite (Qceiling_comp _ _ H). unfold Qceiling.
  rewrite <- inject_Z_opp, Qfloor_Z. lia.
Qed.

Lemma mul_same_value_integers (a b : number) (c r : Z) :
  same_value a (Fin (inject_Z c)) ->
  same_value b (Fin (inject_Z r)) ->
  exists M : Q, JS.mul a b = Fin M /\ M == inject_Z (c * r).
Proof.
  intros Ha Hb.
  apply same_value_Fin in Ha as (qa & -> & Ea).
  apply same_value_Fin in Hb as (qb & -> & Eb).
  exists (qa * qb). split; [reflexivity|].
  rewrite Ea, Eb, inject_Z_mult. reflexivity.
Qed.

(** X8.  The two grid sizes being the whole numbers [c] and [r], both at
    least 1: the loops create [(c - 1) * (r - 1)] dots, fewer than the
    [MAX_DOTS = c * r] that the map from resistance to dots counts with. *)
Theorem fewer_dots_than_MAX_DOTS
    (K : OhmsLawConstants) (Math_sqrt : number -> number) (c r : Z) :
  same_value (DOT_GRID_COLUMNS K Math_sqrt) (Fin (inject_Z c)) ->
  same_value (DOT_GRID_ROWS K Math_sqrt) (Fin (inject_Z r)) ->
  (1 <= c)%Z -> (1 <= r)%Z ->
  exists dots : list Dot,
    createDots K Math_sqrt = Some dots /\
    Z.of_nat (List.length dots) = ((c - 1) * (r - 1))%Z /\
    same_value (MAX_DOTS K Math_sqrt) (Fin (inject_Z (c * r))) /\
    (Z.of_nat (List.length dots) < c * r)%Z.
Proof.
  intros Hc Hr Hc1 Hr1.
  destruct (mul_same_value_integers _ _ c r Hc Hr) as (M & HM & EM).
  apply same_value_Fin in Hc as (qc & Ec & Hqc).
  apply same_value_Fin in Hr as (qr & Er & Hqr).
  destruct (createDots_length K Math_sqrt qc qr Ec Er) as (dots & Hd & Hl).
  exists dots. split; [exact Hd|].
  rewrite (Qceiling_integer qc c Hqc), (Qceiling_integer qr r Hqr) in Hl.
  assert (En : Z.of_nat (List.length dots) = ((c - 1) * (r - 1))%Z).
  { rewrite Hl, Nat2Z.inj_mul, !Z2Nat.id by lia. reflexivity. }
  split; [exact En|]. split.
  - unfold MAX_DOTS in *. rewrite HM. exact EM.
  - rewrite En. nia.
Qed.

(** [RESISTANCE_TO_NUM_DOTS] at every finite resistance, within the range
    or not. *)
Lemma RESISTANCE_TO_NUM_DOTS_clamped K Math_sqrt (M x : Q) :
  MAX_DOTS K Math_sqrt = Fin M ->
  0 <= M ->
  Range.min (RESISTANCE_RANGE K) < Range.max (RESISTANCE_RANGE K) ->
  exists y : Q,
    RESISTANCE_TO_NUM_DOTS K Math_sqrt (Fin x) = Fin y /\
    y == clampBetween (M * 0.05) M
           (interpolate (Range.min (RESISTANCE_RANGE K))
                        (Range.max (RESISTANCE_RANGE K))
                        (M * 0.05) M x).
Proof.
  intros HM Hpos Hlt. unfold RESISTANCE_TO_NUM_DOTS. rewrite HM.
  change (JS.mul (Fin M) (Fin 0.05)) with (Fin (M * 0.05)).
  apply LinearFunction_clamped; lra.
Qed.

Lemma clamped_map_above (lo hi lo' hi' x : Q) :
  lo < hi -> lo' <= hi' -> hi <= x ->
  clampBetween lo' hi' (interpolate lo hi lo' hi' x) == hi'.
Proof.
  intros H1 H2 H3.
  assert (I : hi' <= interpolate lo hi lo' hi' x).
  { assert (E : hi' == interpolate lo hi lo' hi' hi)
      by (unfold interpolate; field; lra).
    rewrite E at 1. now apply interpolate_mono. }
  unfold clampBetween.
  destruct (JS.Qltb (interpolate lo hi lo' hi' x) lo') eqn:A;
    [apply Qltb_true in A; lra|].
  destruct (JS.Qltb hi' (interpolate lo hi lo' hi' x)) eqn:B;
    [reflexivity|]. apply Qltb_false in B. lra.
Qed.

Lemma clamped_map_below (lo hi lo' hi' x : Q) :
  lo < hi -> lo' <= hi' -> x <= lo ->
  clampBetween lo' hi' (interpolate lo hi lo' hi' x) == lo'.
Proof.
  intros H1 H2 H3.
  assert (I : interpolate lo hi lo' hi' x <= lo').
  { assert (E : lo' == interpolate lo hi lo' hi' lo)
      by (unfold interpolate; field; lra).
    rewrite E at 2. now apply interpolate_mono. }
  unfold clampBetween.
  destruct (JS.Qltb (interpolate lo hi lo' hi' x) lo') eqn:A;
    [reflexivity|]. apply Qltb_false in A.
  destruct (JS.Qltb hi' (interpolate lo hi lo' hi' x)) eqn:B;
    [apply Qltb_true in B; lra | lra].
Qed.

(** X9.  The two grid sizes being the whole numbers [c] and [r], both at
    least 1, the shuffle a permutation and the resistance range not a single
    point: at every resistance from the upper bound of the range on, every
    created dot is visible, and at every resistance up to the lower bound
    the visible dots are those with an index below 5% of [c * r]. *)
Theorem dots_at_the_ends_of_the_range
    (K : OhmsLawConstants) (Math_sqrt : number -> number)
    (shuffle : list Dot -> list Dot) (c r : Z) :
  (forall l, Permutation l (shuffle l)) ->
  same_value (DOT_GRID_COLUMNS K Math_sqrt) (Fin (inject_Z c)) ->
  same_value (DOT_GRID_ROWS K Math_sqrt) (Fin (inject_Z r)) ->
  (1 <= c)%Z -> (1 <= r)%Z ->
  Range.min (RESISTANCE_RANGE K) < Range.max (RESISTANCE_RANGE K) ->
  exists dots : list Dot,
    createDots K Math_sqrt = Some dots /\
    (forall x : Q,
        Range.max (RESISTANCE_RANGE K) <= x ->
        numVisibleDots K Math_sqrt shuffle (Fin x)
        = Some (List.length dots)) /\
    (forall x : Q,
        x <= Range.min (RESISTANCE_RANGE K) ->
        numVisibleDots K Math_sqrt shuffle (Fin x)
        = Some (indicesBelow (List.length dots) (inject_Z (c * r) * 0.05))).
Proof.
  intros Hperm Hc Hr Hc1 Hr1 Hlt.
  destruct (mul_same_value_integers _ _ c r Hc Hr) as (M & HM & EM).
  fold (MAX_DOTS K Math_sqrt) in HM.
  assert (Hpos : 0 <= M).
  { rewrite EM. change 0 with (inject_Z 0). rewrite <- Zle_Qle. nia. }
  pose proof Hc as Hc'. pose proof Hr as Hr'.
  apply same_value_Fin in Hc' as (qc & Ec & Hqc).
  apply same_value_Fin in Hr' as (qr & Er & Hqr).
  destruct (createDots_length K Math_sqrt qc qr Ec Er) as (dots & Hd & Hl).
  rewrite (Qceiling_integer qc c Hqc), (Qceiling_integer qr r Hqr) in Hl.
  exists dots. split; [exact Hd|]. split; intros x Hx.
  - destruct (RESISTANCE_TO_NUM_DOTS_clamped K Math_sqrt M x HM Hpos Hlt)
      as (y & Hy & Ey).
    rewrite (numVisibleDots_count K Math_sqrt shuffle dots x y Hperm Hd Hy).
    f_equal.
    rewrite clamped_map_above in Ey by (auto; lra).
    rewrite (indicesBelow_comp _ y (inject_Z (c * r)))
      by (now rewrite Ey, EM).
    rewrite indicesBelow_ceiling, (Qceiling_integer _ (c * r)) by reflexivity.
    assert (Z.of_nat (List.length dots) = ((c - 1) * (r - 1))%Z).
    { rewrite Hl, Nat2Z.inj_mul, !Z2Nat.id by lia. reflexivity. }
    assert (Z.of_nat (List.length dots) <= c * r)%Z by nia.
    lia.
  - destruct (RESISTANCE_TO_NUM_DOTS_clamped K Math_sqrt M x HM Hpos Hlt)
      as (y & Hy & Ey).
    rewrite (numVisibleDots_count K Math_sqrt shuffle dots x y Hperm Hd Hy).
    f_equal.
    rewrite clamped_map_below in Ey by (auto; lra).
    apply indicesBelow_comp. now rewrite Ey, EM.
Qed.

Lemma nth_error_forEachFrom (f : Dot -> nat -> Dot) (children : list Dot) :
  forall (index i : nat),
    nth_error (forEachFrom index f children) i
    = option_map (fun dot => f dot (index + i)%nat) (nth_error children i).
Proof.
  induction children as [|dot rest IH]; intros index i.
  - destruct i; reflexivity.
  - destruct i as [|i]; cbn [forEachFrom nth_error option_map].
    + now rewrite Nat.add_0_r.
    + rewrite IH. now rewrite Nat.add_succ_comm.
Qed.

(** X10.  [MAX_DOTS] being finite and not negative and the resistance range
    not a single point: when the resistance goes from one finite value to a
    greater one, the children of [dotsNode] stay the same dots in the same
    order, and no dot that was visible is hidden. *)
Theorem raising_the_resistance_hides_no_dot
    (K : OhmsLawConstants) (Math_sqrt : number -> number)
    (shuffle : list Dot -> list Dot) (M x x' : Q) :
  MAX_DOTS K Math_sqrt = Fin M ->
  0 <= M ->
  Range.min (RESISTANCE_RANGE K) < Range.max (RESISTANCE_RANGE K) ->
  x <= x' ->
  exists children children' : list Dot,
    dotsNodeChildren K Math_sqrt shuffle (Fin x) = Some children /\
    dotsNodeChildren K Math_sqrt shuffle (Fin x') = Some children' /\
    List.length children = List.length children' /\
    forall (i : nat) (dot : Dot),
      nth_error children i = Some dot ->
      exists dot' : Dot,
        nth_error children' i = Some dot' /\
        column dot' = column dot /\
        row dot' = row dot /\
        (visible dot = true -> visible dot' = true).
Proof.
  intros HM Hpos Hlt Hxx.
  destruct (createDots_finite K Math_sqrt M HM) as [dots Hd].
  destruct (RESISTANCE_TO_NUM_DOTS_clamped K Math_sqrt M x HM Hpos Hlt)
    as (y & Hy & Ey).
  destruct (RESISTANCE_TO_NUM_DOTS_clamped K Math_sqrt M x' HM Hpos Hlt)
    as (y' & Hy' & Ey').
  assert (Hyy : y <= y').
  { rewrite Ey, Ey'. apply clampBetween_mono; [lra|].
    apply interpolate_mono; auto. lra. }
  unfold dotsNodeChildren, showDots. rewrite Hd, Hy, Hy'.
  do 2 eexists. split; [reflexivity|]. split; [reflexivity|].
  assert (L : forall z, List.length (forEachFrom 0 (showDot (Fin z)) (shuffle dots))
                        = List.length (shuffle dots)).
  { intros z. generalize 0%nat. induction (shuffle dots) as [|d l IH];
      intros k; simpl; [reflexivity|]. now rewrite IH. }
  split; [now rewrite !L|].
  intros i dot Hi. rewrite nth_error_forEachFrom in Hi |- *.
  destruct (nth_error (shuffle dots) i) as [d0|]; [|discriminate].
  cbn [option_map] in *. injection Hi as <-.
  eexists. split; [reflexivity|]. split; [reflexivity|]. split; [reflexivity|].
  rewrite !showDot_visible. intros H.
  apply Nat.ltb_lt in H. apply Nat.ltb_lt.
  pose proof (Qceiling_resp_le y y' Hyy). lia.
Qed.

(** * Further properties of the arrow-size description *)

Lemma roundHalfAway_mono (x y : Q) :
  x <= y -> (roundHalfAway x <= roundHalfAway y)%Z.
Proof.
  intros H. unfold roundHalfAway.
  destruct (JS.Qltb x 0) eqn:A, (JS.Qltb y 0) eqn:B;
    try apply Qltb_true in A; try apply Qltb_false in A;
    try apply Qltb_true in B; try apply Qltb_false in B.
  - assert (Qfloor (- y + (1 # 2)) <= Qfloor (- x + (1 # 2)))%Z
      by (apply Qfloor_resp_le; lra).
    lia.
  - assert (Qfloor 0 <= Qfloor (- x + (1 # 2)))%Z
      by (apply Qfloor_resp_le; lra).
    assert (Qfloor 0 <= Qfloor (y + (1 # 2)))%Z
      by (apply Qfloor_resp_le; lra).
    change (Qfloor 0) with 0%Z in *. lia.
  - lra.
  - apply Qfloor_resp_le. lra.
Qed.

Lemma Qfloor_half_integer (z : Z) (x : Q) :
  x == inject_Z z -> Qfloor (x + (1 # 2)) = z.
Proof.
  intros H.
  assert (L : inject_Z z <= x + (1 # 2)) by lra.
  apply Qfloor_resp_le in L. rewrite Qfloor_Z in L.
  pose proof (Qfloor_le (x + (1 # 2))) as U.
  assert (U' : inject_Z (Qfloor (x + (1 # 2))) < inject_Z (z + 1)).
  { rewrite inject_Z_plus. change (inject_Z 1) with 1. lra. }
  rewrite <- Zlt_Qlt in U'. lia.
Qed.

Lemma roundHalfAway_integer (z : Z) (x : Q) :
  x == inject_Z z -> roundHalfAway x = z.
Proof.
  intros H. unfold roundHalfAway.
  destruct (JS.Qltb x 0) eqn:A.
  - rewrite (Qfloor_half_integer (- z) (- x)); [lia|].
    rewrite inject_Z_opp. now rewrite H.
  - now apply Qfloor_half_integer.
Qed.

Lemma describedIndex_mono (n : nat) (a t h h' : Q) :
  (1 <= n)%nat -> a < t -> h <= h' ->
  (describedIndex n a t h <= describedIndex n a t h')%Z.
Proof.
  intros Hn Hat Hh. unfold describedIndex.
  assert (Hk : 0 <= inject_Z (Z.of_nat n - 1)).
  { change 0 with (inject_Z 0). rewrite <- Zle_Qle. lia. }
  destruct (JS.Qltb t h) eqn:A, (JS.Qltb t h') eqn:B;
    try apply Qltb_true in A; try apply Qltb_false in A;
    try apply Qltb_true in B; try apply Qltb_false in B.
  - lia.
  - lra.
  - rewrite <- (roundHalfAway_integer (Z.of_nat n - 1)
                  (inject_Z (Z.of_nat n - 1))) at 2 by reflexivity.
    apply roundHalfAway_mono.
    apply Qle_shift_div_r; [lra|]. nra.
  - apply roundHalfAway_mono.
    apply Qdiv_le_cross; [lra | lra |].
    assert (inject_Z (Z.of_nat n - 1) * (h - a)
            <= inject_Z (Z.of_nat n - 1) * (h' - a)) by nra.
    nra.
Qed.

(** X11.  The list of strings not being empty and the smallest arrow height
    below the threshold: of two boxes with the same smallest arrow height,
    the one whose arrow is at least as high has an index at least as great;
    a higher arrow is never described by an earlier string of the list. *)
Theorem higher_arrow_has_no_smaller_index
    (K : OhmsLawConstants) (self self' : WireBox) (a h h' : Q) :
  RELATIVE_SIZE_STRINGS K <> [] ->
  minArrowHeight self = Fin a ->
  minArrowHeight self' = Fin a ->
  height (bottomLeftArrow self) = Fin h ->
  height (bottomLeftArrow self') = Fin h' ->
  a < WIRE_HEIGHT K * 2 ->
  h <= h' ->
  exists i i' : Z,
    same_value (arrowSizeIndex K self) (Fin (inject_Z i)) /\
    same_value (arrowSizeIndex K self') (Fin (inject_Z i')) /\
    (i <= i')%Z.
Proof.
  intros Hne Ha Ha' Hh Hh' Hat Hhh.
  assert (Hn : (1 <= List.length (RELATIVE_SIZE_STRINGS K))%nat).
  { destruct (RELATIVE_SIZE_STRINGS K); [contradiction|simpl; lia]. }
  assert (Hcfg : ~ a == WIRE_HEIGHT K * 2) by lra.
  do 2 eexists. split; [|split].
  - apply (arrowSizeIndex_described K self a h Ha Hh (or_introl Hcfg)).
  - apply (arrowSizeIndex_described K self' a h' Ha' Hh' (or_introl Hcfg)).
  - now apply describedIndex_mono.
Qed.

(** X12.  The smallest arrow height being below the threshold: an arrow of
    the smallest height is described by the first string of the list, and
    an arrow whose height is the threshold by the last, both in lower
    case. *)
Theorem ends_of_the_scale_of_descriptions
    (K : OhmsLawConstants) (assert : bool) (self : WireBox) (a h : Q)
    (first : string) (others : list string) :
  RELATIVE_SIZE_STRINGS K = first :: others ->
  minArrowHeight self = Fin a ->
  height (bottomLeftArrow self) = Fin h ->
  a < WIRE_HEIGHT K * 2 ->
  (h == a ->
   getArrowSizeDescription K assert self = Normal (JS.toLowerCase first)) /\
  (h == WIRE_HEIGHT K * 2 ->
   getArrowSizeDescription K assert self
   = Normal (JS.toLowerCase (last (RELATIVE_SIZE_STRINGS K) EmptyString))).
Proof.
  intros Hs Ha Hh Hat.
  assert (Hcfg : ~ a == WIRE_HEIGHT K * 2) by lra.
  pose proof (arrowSizeIndex_described K self a h Ha Hh (or_introl Hcfg)) as Hi.
  split; intros E.
  - rewrite (getArrowSizeDescription_integer K assert self _ Hi).
    assert (Z0 : describedIndex (List.length (RELATIVE_SIZE_STRINGS K))
                                a (WIRE_HEIGHT K * 2) h = 0%Z).
    { unfold describedIndex.
      assert (B : JS.Qltb (WIRE_HEIGHT K * 2) h = false)
        by (apply Qltb_false; lra).
      rewrite B. apply roundHalfAway_integer.
      rewrite E. change (inject_Z 0) with 0. field. lra. }
    rewrite Z0, Hs. reflexivity.
  - rewrite (getArrowSizeDescription_integer K assert self _ Hi).
    set (n := List.length (RELATIVE_SIZE_STRINGS K)) in *.
    assert (Hn : (1 <= n)%nat) by (unfold n; rewrite Hs; simpl; lia).
    assert (Zn : describedIndex n a (WIRE_HEIGHT K * 2) h = (Z.of_nat n - 1)%Z).
    { unfold describedIndex.
      assert (B : JS.Qltb (WIRE_HEIGHT K * 2) h = false)
        by (apply Qltb_false; lra).
      rewrite B. apply roundHalfAway_integer.
      rewrite E. field. lra. }
    rewrite Zn.
    replace (0 <=? Z.of_nat n - 1)%Z with true
      by (symmetry; apply Z.leb_le; lia).
    replace (Z.to_nat (Z.of_nat n - 1)) with (n - 1)%nat by lia.
    unfold n. rewrite (nth_error_last _ EmptyString); [reflexivity|].
    rewrite Hs. discriminate.
Qed.

(** X13.  The smallest arrow height being below the threshold: an arrow so
    far below the smallest height that the linear map gives -1/2 or less has
    a negative index, and the function throws: an [AssertionError] with
    assertions enabled, a [TypeError] without. *)
Theorem arrow_far_below_the_smallest_throws
    (K : OhmsLawConstants) (assert : bool) (self : WireBox) (a h : Q) :
  minArrowHeight self = Fin a ->
  height (bottomLeftArrow self) = Fin h ->
  a < WIRE_HEIGHT K * 2 ->
  inject_Z (Z.of_nat (List.length (RELATIVE_SIZE_STRINGS K)) - 1) * (h - a)
  / (WIRE_HEIGHT K * 2 - a) <= - (1 # 2) ->
  getArrowSizeDescription K assert self
  = Throw (if assert then AssertionError else TypeError).
Proof.
  intros Ha Hh Hat Hx.
  assert (Hcfg : ~ a == WIRE_HEIGHT K * 2) by lra.
  pose proof (arrowSizeIndex_described K self a h Ha Hh (or_introl Hcfg)) as Hi.
  rewrite (getArrowSizeDescription_integer K assert self _ Hi).
  set (n := List.length (RELATIVE_SIZE_STRINGS K)) in *.
  set (x := inject_Z (Z.of_nat n - 1) * (h - a) / (WIRE_HEIGHT K * 2 - a)) in *.
  assert (Hneg : (describedIndex n a (WIRE_HEIGHT K * 2) h < 0)%Z).
  { unfold describedIndex.
    destruct (JS.Qltb (WIRE_HEIGHT K * 2) h) eqn:B.
    - apply Qltb_true in B.
      (* above the threshold the map is not negative unless the list is
         empty, and then the index is -1 *)
      destruct (Z.eq_dec (Z.of_nat n) 0) as [E0|E0]; [lia|].
      exfalso.
      assert (Hk : 0 <= inject_Z (Z.of_nat n - 1)).
      { change 0 with (inject_Z 0). rewrite <- Zle_Qle. lia. }
      assert (P : 0 <= x).
      { unfold x. apply Qle_shift_div_l; [lra|]. nra. }
      lra.
    - fold x. unfold roundHalfAway.
      assert (A : JS.Qltb x 0 = true) by (apply Qltb_true; lra).
      rewrite A.
      assert (Qfloor 1 <= Qfloor (- x + (1 # 2)))%Z
        by (apply Qfloor_resp_le; lra).
      change (Qfloor 1) with 1%Z in *. lia. }
  replace (0 <=? describedIndex n a (WIRE_HEIGHT K * 2) h)%Z with false
    by (symmetry; apply Z.leb_gt; exact Hneg).
  reflexivity.
Qed.

Lemma non_finite_index_throws K assert self :
  JS.isFinite (arrowSizeIndex K self) = false ->
  getArrowSizeDescription K assert self
  = Throw (if assert then AssertionError else TypeError).
Proof.
  intros H. unfold getArrowSizeDescription, indexInBounds.
  destruct (arrowSizeIndex K self); try discriminate; destruct assert; reflexivity.
Qed.

Lemma roundSymmetric_non_finite (v : number) :
  JS.isFinite v = false -> JS.isFinite (Util.roundSymmetric v) = false.
Proof. destruct v; try discriminate; intros _; reflexivity. Qed.

Lemma linear_degenerate (a1 a2 b1 b2 a3 : number) (x y : Q) :
  a1 = Fin x -> a2 = Fin y -> y == x ->
  JS.isFinite (Util.linear a1 a2 b1 b2 a3) = false.
Proof.
  intros -> -> E. unfold Util.linear.
  assert (Z : Qeq_bool (y + - x) 0 = true) by (apply Qeq_eq_bool; lra).
  assert (D : JS.isFinite (JS.div (JS.sub b2 b1) (JS.sub (Fin y) (Fin x)))
              = false).
  { simpl JS.sub at 2. destruct (JS.sub b2 b1) as [q| | |]; simpl; rewrite ?Z.
    - unfold JS.inf_like.
      destruct (Qeq_bool q 0); [reflexivity|]. destruct (JS.Qltb 0 q); reflexivity.
    - destruct (JS.Qltb (y + - x) 0); reflexivity.
    - destruct (JS.Qltb (y + - x) 0); reflexivity.
    - reflexivity. }
  assert (M : forall u w, JS.isFinite u = false -> JS.isFinite (JS.mul u w) = false).
  { intros u w Hu. destruct u as [q| | |]; try discriminate;
      destruct w as [p| | |]; simpl; unfold JS.inf_like;
      repeat match goal with
             | |- context [if ?b then _ else _] => destruct b
             end; reflexivity. }
  assert (A : forall u w, JS.isFinite u = false -> JS.isFinite (JS.add u w) = false).
  { intros u w Hu. destruct u as [q| | |]; try discriminate;
      destruct w as [p| | |]; reflexivity. }
  apply A, M, D.
Qed.

(** X14.  When the smallest arrow height is the threshold itself, the linear
    map divides by zero: for every finite height up to the threshold the
    index is not a finite number and the function throws, an
    [AssertionError] with assertions enabled, a [TypeError] without. *)
Theorem smallest_height_at_the_threshold_throws
    (K : OhmsLawConstants) (assert : bool) (self : WireBox) (a h : Q) :
  minArrowHeight self = Fin a ->
  height (bottomLeftArrow self) = Fin h ->
  a == WIRE_HEIGHT K * 2 ->
  h <= WIRE_HEIGHT K * 2 ->
  JS.isFinite (arrowSizeIndex K self) = false /\
  getArrowSizeDescription K assert self
  = Throw (if assert then AssertionError else TypeError).
Proof.
  intros Ha Hh E Hle.
  assert (F : JS.isFinite (arrowSizeIndex K self) = false).
  { unfold arrowSizeIndex. rewrite Hh.
    unfold maxArrowHeightThreshold, HEIGHT, maxArrowHeightThresholdCoefficient.
    unfold JS.gt. cbn [JS.mul JS.lt].
    assert (B : JS.Qltb (WIRE_HEIGHT K * 2) h = false)
      by (apply Qltb_false; exact Hle).
    rewrite B. apply roundSymmetric_non_finite.
    apply (linear_degenerate _ _ _ _ _ a (WIRE_HEIGHT K * 2));
      [exact Ha | reflexivity | now symmetry]. }
  split; [exact F|]. now apply non_finite_index_throws.
Qed.

(** * Properties of the battery *)

(** X15.  The voltage of an AA battery being above 0.1 V: for every finite
    voltage, [setVoltage] gives the main body the width [MAIN_BODY_WIDTH]
    times a scale between 0.0001 and 1; the scale is 1 from the voltage of
    an AA battery on and 0.0001 up to 0.1 V, and a greater voltage never
    gives a smaller scale. *)
Theorem battery_length_follows_the_voltage
    (B : BatteryConstants) (self : BatteryView.t) (v v' : Q) :
  0.1 < AA_VOLTAGE B ->
  exists s s' : Q,
    BatteryView.mainBodyWidth (BatteryView.setVoltage B (Fin v) self)
    = Fin (BATTERY_WIDTH B * 0.87 * s) /\
    BatteryView.mainBodyWidth (BatteryView.setVoltage B (Fin v') self)
    = Fin (BATTERY_WIDTH B * 0.87 * s') /\
    0.0001 <= s /\ s <= 1 /\
    (AA_VOLTAGE B <= v -> s == 1) /\
    (v <= 0.1 -> s == 0.0001) /\
    (v <= v' -> s <= s').
Proof.
  intros HAA.
  destruct (LinearFunction_clamped 0.1 (AA_VOLTAGE B) 0.0001 1 v)
    as (s & Hs & Es); [exact HAA | lra |].
  destruct (LinearFunction_clamped 0.1 (AA_VOLTAGE B) 0.0001 1 v')
    as (s' & Hs' & Es'); [exact HAA | lra |].
  exists s, s'.
  unfold BatteryView.setVoltage, BatteryView.voltageToScale,
    BatteryView.MAIN_BODY_WIDTH.
  cbn [BatteryView.mainBodyWidth]. rewrite Hs, Hs'.
  split; [reflexivity|]. split; [reflexivity|].
  pose proof (clampBetween_bounds 0.0001 1
                (interpolate 0.1 (AA_VOLTAGE B) 0.0001 1 v)) as [L U]; [lra|].
  repeat split.
  - now rewrite Es.
  - now rewrite Es.
  - intros H. rewrite Es. apply clamped_map_above; auto. lra.
  - intros H. rewrite Es. apply clamped_map_below; auto. lra.
  - intros H. rewrite Es, Es'. apply clampBetween_mono; [lra|].
    apply interpolate_mono; auto. lra.
Qed.

(** * Properties of the rounding *)

(** X16.  [Util.roundSymmetric] is symmetric about zero: the rounding of the
    opposite of a finite number is the opposite of its rounding; and the
    rounding is a whole number at most 1/2 away from the number. *)
Theorem roundSymmetric_is_symmetric_and_nearest (x : Q) :
  exists z : Z,
    same_value (Util.roundSymmetric (Fin x)) (Fin (inject_Z z)) /\
    same_value (Util.roundSymmetric (Fin (- x))) (Fin (inject_Z (- z))) /\
    Qabs (inject_Z z - x) <= 1 # 2.
Proof.
  exists (roundHalfAway x). split; [|split].
  - apply roundSymmetric_Fin. reflexivity.
  - eapply same_value_trans; [apply (roundSymmetric_Fin (- x) (- x)); reflexivity|].
    simpl. apply inject_Z_injective.
    unfold roundHalfAway.
    destruct (JS.Qltb (- x) 0) eqn:A, (JS.Qltb x 0) eqn:B;
      try apply Qltb_true in A; try apply Qltb_false in A;
      try apply Qltb_true in B; try apply Qltb_false in B.
    + lra.
    + rewrite (Qfloor_comp (- - x + (1 # 2)) (x + (1 # 2))); [reflexivity|].
      ring.
    + lia.
    + assert (E : x == 0) by lra.
      rewrite (Qfloor_comp (- x + (1 # 2)) (1 # 2)) by (rewrite E; reflexivity).
      rewrite (Qfloor_comp (x + (1 # 2)) (1 # 2)) by (rewrite E; reflexivity).
      reflexivity.
  - apply Qabs_Qle_condition. unfold roundHalfAway.
    destruct (JS.Qltb x 0) eqn:A.
    + pose proof (Qfloor_le (- x + (1 # 2))) as L.
      pose proof (Qlt_floor (- x + (1 # 2))) as U.
      rewrite inject_Z_plus in U. change (inject_Z 1) with 1 in U.
      rewrite inject_Z_opp. split; lra.
    + pose proof (Qfloor_le (x + (1 # 2))) as L.
      pose proof (Qlt_floor (x + (1 # 2))) as U.
      rewrite inject_Z_plus in U. change (inject_Z 1) with 1 in U.
      split; lra.
Qed.

(** * Further properties of the [WireBox] constructor *)

Lemma measuringState_invariant K m :
  invariant K m -> invariant K (fst (measuringState K m)).
Proof.
  intros I. unfold measuringState.
  pose proof (invariant_setVoltage K m (Fin (Range.min (VOLTAGE_RANGE K))) I)
    as I1.
  destruct (setVoltage (Fin (Range.min (VOLTAGE_RANGE K))) m) as [m1 log1].
  simpl in I1.
  pose proof (invariant_setResistance
                K m1 (Fin (Range.max (RESISTANCE_RANGE K))) I1) as I2.
  destruct (setResistance (Fin (Range.max (RESISTANCE_RANGE K))) m1)
    as [m2 log2].
  exact I2.
Qed.

(** X7.  From every state that the model reaches, the statements with which
    the [WireBox] constructor measures the smallest arrow leave the voltage
    and the resistance at their default values, and end with the
    [TypeError] of [reset]: the constructor does not return. *)
Theorem measuring_restores_the_defaults_then_throws
    (K : OhmsLawConstants) (m : OhmsLawModel) :
  reachable K m ->
  same_value (getVoltage (modelOf (measureMinArrowHeight K m)))
             (Range.getDefaultValue (VOLTAGE_RANGE K)) /\
  same_value (getResistance (modelOf (measureMinArrowHeight K m)))
             (Range.getDefaultValue (RESISTANCE_RANGE K)) /\
  completionOf (measureMinArrowHeight K m) = Throw TypeError.
Proof.
  intros Hreach.
  pose proof (measuringState_invariant K m (reachable_invariant K m Hreach))
    as I.
  unfold measureMinArrowHeight.
  destruct (measuringState K m) as [m2 log2]. simpl in I.
  pose proof (reset_outcome K m2 I) as (Hv & Hr & _ & Hc).
  destruct (reset m2) as [[m3 log3] e].
  unfold modelOf, completionOf in *. simpl in *. auto.
Qed.

(** * The further properties on the example constants *)

Lemma exampleObservedState_reachable :
  reachable exampleConstants exampleObservedState.
Proof. apply reachable_run, reachable_new. Qed.

(** X1: the observers 7 and 9 of the current are called before the observer
    8 of the voltage. *)
Lemma setters_notify_current_observers_first_example :
  snd (setVoltage (Fin 9) exampleObservedState)
  = [ notice current (Fin (1000 * 9 / 10)) (Some (Fin (1000 * 9.9 / 10))) 7;
      notice current (Fin (1000 * 9 / 10)) (Some (Fin (1000 * 9.9 / 10))) 9;
      notice voltage (Fin 9) (Some (Fin 9.9)) 8 ].
Proof.
  apply (proj1 (setters_notify_current_observers_first
                  exampleConstants exampleObservedState (Fin 9)
                  exampleObservedState_reachable)).
  reflexivity.
Defined.

(** X3 at 9.9 V, and at 0 V. *)
Lemma zero_resistance_gives_a_non_finite_current_example :
  (completionOf (step (SetResistance (Fin 0)) exampleState) = Normal tt /\
   JS.isFinite
     (getCurrent (modelOf (step (SetResistance (Fin 0)) exampleState)))
   = false /\
   (getCurrent (modelOf (step (SetResistance (Fin 0)) exampleState)) = PosInf
    \/
    getCurrent (modelOf (step (SetResistance (Fin 0)) exampleState)) = NegInf))
  /\
  getCurrent (modelOf (step (SetResistance (Fin 0)) exampleZeroVoltageState))
  = NaN.
Proof.
  split.
  - destruct (zero_resistance_gives_a_non_finite_current
                exampleConstants exampleState exampleState_reachable)
      as (H1 & H2 & H3).
    split; [exact H1|]. split; [exact H2|].
    apply (proj2 (H3 9.9 eq_refl)). lra.
  - destruct (zero_resistance_gives_a_non_finite_current
                exampleConstants exampleZeroVoltageState
                (reachable_step exampleConstants (SetVoltage (Fin 0)) _
                   (reachable_new exampleConstants)))
      as (_ & _ & H3).
    apply (proj1 (H3 0 eq_refl)). reflexivity.
Defined.

(** X4 at 9.9 V and 10 ohms, the greatest current of the example ranges. *)
Lemma current_stays_between_the_corners_example :
  exists c : Q,
    getCurrent exampleState = Fin c /\
    1000 * 0.1 / 1000 <= c /\ c <= 1000 * 9.9 / 10.
Proof.
  apply (current_stays_between_the_corners exampleConstants exampleState 9.9 10).
  - apply exampleState_reachable.
  - reflexivity.
  - reflexivity.
  - unfold Range.contains; simpl; lra.
  - unfold Range.contains; simpl; lra.
  - simpl; lra.
  - simpl; lra.
Defined.

(** X5 from the example state: 0.1 V over 1000 ohms. *)
Lemma minArrowHeight_is_measured_at_the_smallest_current_example :
  same_value (getCurrent (fst (measuringState exampleConstants exampleState)))
             (Fin (1000 * 0.1 / 1000)) /\
  forall v r : Q,
    Range.contains (VOLTAGE_RANGE exampleConstants) v ->
    Range.contains (RESISTANCE_RANGE exampleConstants) r ->
    1000 * 0.1 / 1000 <= 1000 * v / r.
Proof.
  apply (minArrowHeight_is_measured_at_the_smallest_current
           exampleConstants exampleState).
  - apply exampleState_reachable.
  - simpl; lra.
  - simpl; lra.
  - simpl; lra.
Defined.

(** X6 from 9.9 V and 10 ohms: the observer 7 receives 450 mA, the current
    of 4.5 V over 10 ohms. *)
Lemma reset_shows_the_current_between_its_two_steps_example :
  In (notice current (derivation (Fin 4.5) (Fin 10))
             (Some (Fin (1000 * 9.9 / 10))) 7)
     (logOf (reset exampleObservedState)).
Proof.
  apply (reset_shows_the_current_between_its_two_steps
           exampleConstants exampleObservedState 7).
  - apply exampleObservedState_reachable.
  - simpl. tauto.
  - reflexivity.
  - reflexivity.
Defined.

(** X7 on the constructed model. *)
Lemma measuring_restores_the_defaults_then_throws_example :
  same_value
    (getVoltage (modelOf (measureMinArrowHeight
                            exampleConstants
                            (newOhmsLawModel exampleConstants))))
    (Fin 4.5) /\
  same_value
    (getResistance (modelOf (measureMinArrowHeight
                               exampleConstants
                               (newOhmsLawModel exampleConstants))))
    (Fin 500) /\
  completionOf (measureMinArrowHeight exampleConstants
                                      (newOhmsLawModel exampleConstants))
  = Throw TypeError.
Proof.
  apply (measuring_restores_the_defaults_then_throws exampleConstants).
  apply reachable_new.
Defined.

Lemma example_columns :
  same_value (DOT_GRID_COLUMNS exampleConstants exampleSqrt)
             (Fin (inject_Z 39)).
Proof. vm_compute. reflexivity. Qed.

Lemma example_rows :
  same_value (DOT_GRID_ROWS exampleConstants exampleSqrt) (Fin (inject_Z 10)).
Proof. vm_compute. reflexivity. Qed.

(** X8 on the example constants: 38 * 9 = 342 dots, and [MAX_DOTS] 390. *)
Lemma fewer_dots_than_MAX_DOTS_example :
  exists dots : list Dot,
    createDots exampleConstants exampleSqrt = Some dots /\
    Z.of_nat (List.length dots) = ((39 - 1) * (10 - 1))%Z /\
    same_value (MAX_DOTS exampleConstants exampleSqrt)
               (Fin (inject_Z (39 * 10))) /\
    (Z.of_nat (List.length dots) < 39 * 10)%Z.
Proof.
  apply (fewer_dots_than_MAX_DOTS exampleConstants exampleSqrt 39 10).
  - apply example_columns.
  - apply example_rows.
  - lia.
  - lia.
Defined.

(** X9 on the example constants. *)
Lemma dots_at_the_ends_of_the_range_example :
  exists dots : list Dot,
    createDots exampleConstants exampleSqrt = Some dots /\
    (forall x : Q,
        1000 <= x ->
        numVisibleDots exampleConstants exampleSqrt exampleShuffle (Fin x)
        = Some (List.length dots)) /\
    (forall x : Q,
        x <= 10 ->
        numVisibleDots exampleConstants exampleSqrt exampleShuffle (Fin x)
        = Some (indicesBelow (List.length dots) (inject_Z (39 * 10) * 0.05))).
Proof.
  apply (dots_at_the_ends_of_the_range
           exampleConstants exampleSqrt exampleShuffle 39 10).
  - apply exampleShuffle_permutation.
  - apply example_columns.
  - apply example_rows.
  - lia.
  - lia.
  - simpl. lra.
Defined.

(** X10 on the example constants, from 10 ohms to 500 ohms. *)
Lemma raising_the_resistance_hides_no_dot_example :
  exists children children' : list Dot,
    dotsNodeChildren exampleConstants exampleSqrt exampleShuffle (Fin 10)
    = Some children /\
    dotsNodeChildren exampleConstants exampleSqrt exampleShuffle (Fin 500)
    = Some children' /\
    List.length children = List.length children' /\
    forall (i : nat) (dot : Dot),
      nth_error children i = Some dot ->
      exists dot' : Dot,
        nth_error children' i = Some dot' /\
        column dot' = column dot /\
        row dot' = row dot /\
        (visible dot = true -> visible dot' = true).
Proof.
  apply (raising_the_resistance_hides_no_dot
           exampleConstants exampleSqrt exampleShuffle 390 10 500).
  - vm_compute. reflexivity.
  - lra.
  - simpl. lra.
  - lra.
Defined.

(** X11 at the heights of 100 and 400 units. *)
Lemma higher_arrow_has_no_smaller_index_example :
  exists i i' : Z,
    same_value (arrowSizeIndex exampleConstants exampleWireBox)
               (Fin (inject_Z i)) /\
    same_value (arrowSizeIndex exampleConstants exampleTallWireBox)
               (Fin (inject_Z i')) /\
    (i <= i')%Z.
Proof.
  apply (higher_arrow_has_no_smaller_index
           exampleConstants exampleWireBox exampleTallWireBox 20 100 400).
  - discriminate.
  - reflexivity.
  - reflexivity.
  - reflexivity.
  - reflexivity.
  - simpl. lra.
  - lra.
Defined.

(** X12 at the heights of 20 units, the smallest, and 360 units, the
    threshold. *)
Lemma ends_of_the_scale_of_descriptions_example :
  getArrowSizeDescription exampleConstants true exampleSmallestWireBox
  = Normal "tiny"%string /\
  getArrowSizeDescription exampleConstants true exampleThresholdWireBox
  = Normal "huge"%string.
Proof.
  split.
  - apply (proj1 (ends_of_the_scale_of_descriptions
                    exampleConstants true exampleSmallestWireBox 20 20
                    "Tiny"%string _ eq_refl eq_refl eq_refl
                    ltac:(simpl; lra))).
    reflexivity.
  - apply (proj2 (ends_of_the_scale_of_descriptions
                    exampleConstants true exampleThresholdWireBox 20 360
                    "Tiny"%string _ eq_refl eq_refl eq_refl
                    ltac:(simpl; lra))).
    reflexivity.
Defined.

(** X13 at a height of 100 units with a smallest height of 200 units. *)
Lemma arrow_far_below_the_smallest_throws_example :
  getArrowSizeDescription exampleConstants true exampleShortWireBox
  = Throw AssertionError /\
  getArrowSizeDescription exampleConstants false exampleShortWireBox
  = Throw TypeError.
Proof.
  split.
  - apply (arrow_far_below_the_smallest_throws
             exampleConstants true exampleShortWireBox 200 100
             eq_refl eq_refl).
    + simpl. lra.
    + vm_compute. discriminate.
  - apply (arrow_far_below_the_smallest_throws
             exampleConstants false exampleShortWireBox 200 100
             eq_refl eq_refl).
    + simpl. lra.
    + vm_compute. discriminate.
Defined.

(** X14 with the smallest height and the height both at 360 units. *)
Lemma smallest_height_at_the_threshold_throws_example :
  JS.isFinite (arrowSizeIndex exampleConstants exampleDegenerateWireBox)
  = false /\
  getArrowSizeDescription exampleConstants true exampleDegenerateWireBox
  = Throw AssertionError.
Proof.
  apply (smallest_height_at_the_threshold_throws
           exampleConstants true exampleDegenerateWireBox 360 360
           eq_refl eq_refl).
  - reflexivity.
  - simpl. lra.
Defined.

(** X15 on the example battery, at 0.05 V and 9 V. *)
Lemma battery_length_follows_the_voltage_example :
  exists s s' : Q,
    BatteryView.mainBodyWidth
      (BatteryView.setVoltage exampleBattery (Fin 0.05) exampleBatteryView)
    = Fin (82 * 0.87 * s) /\
    BatteryView.mainBodyWidth
      (BatteryView.setVoltage exampleBattery (Fin 9) exampleBatteryView)
    = Fin (82 * 0.87 * s') /\
    0.0001 <= s /\ s <= 1 /\
    (1.5 <= 0.05 -> s == 1) /\
    (0.05 <= 0.1 -> s == 0.0001) /\
    (0.05 <= 9 -> s <= s').
Proof.
  apply (battery_length_follows_the_voltage
           exampleBattery exampleBatteryView 0.05 9).
  simpl. lra.
Defined.
